(** * launch_ros_sandbox: the [LoadDockerNodes] action

    A shallow embedding of [launch_ros_sandbox/actions/load_docker_nodes.py].

    The action owns four mutable fields ([_completed_future],
    [_started_task], [_container], [_executor]) and talks to three
    collaborators: the Docker client, the asyncio loop of the launch context
    and the logger.  Methods are embedded in a small monad that threads the
    fields, records every call made on a collaborator in an ordered trace and
    propagates Python exceptions.  Python values that the code inspects at
    run time (log chunks) are an inductive type.

    What the model leaves out: failures of the Docker daemon other than
    [ImageNotFound], log streams that never end, and the timing of the pool
    workers.  A call that Python itself rejects because the run arguments
    of the policy repeat a keyword written in the call raises [TypeError]
    before the daemon is reached.  The standard-library functions the module relies on
    ([shlex.split], [bytes.decode], [str.strip], the constructor of
    [ThreadPoolExecutor]) are modelled after their Python definitions. *)

From Stdlib Require Import List Bool NArith ZArith String Ascii Lia.
From Stdlib.Strings Require Import Byte.
Import ListNotations.

Set Implicit Arguments.
Set Warnings "-register-all".

(* ================================================================= *)
(** ** Python strings, bytes and the built-ins the module calls *)

Module Py.

(** A Python [str] is a sequence of Unicode code points. *)
Definition str := list N.

(** Literals of the source are written [py "..."]. *)
Definition py (s : string) : str :=
  map (fun a => N_of_ascii a) (list_ascii_of_string s).

(** The double-quote character, for literals that contain one. *)
Definition dq : str := [34%N].

Definition str_eqb (a b : str) : bool :=
  if list_eq_dec N.eq_dec a b then true else false.

Definition bytes := list byte.

(** Exceptions that cross a function boundary of the module. *)
Inductive exn :=
| ValueError (msg : str)
| RuntimeError (msg : str)
| UnicodeDecodeError
| AttributeError
| TypeError
| CancelledError
| ImageNotFound (msg : str).

Inductive result (A : Type) :=
| Ok (a : A)
| Raise (e : exn).
Arguments Ok {A} a.
Arguments Raise {A} e.

(** *** [bytes.decode('utf-8')] (strict error handler) *)

Definition in_range (lo hi b : N) : bool := (lo <=? b)%N && (b <=? hi)%N.

Definition continuation (b : N) : bool := in_range 128 191 b.

Definition low6 (b : N) : N := N.land b 63.

Fixpoint utf8 (bs : list N) : option str :=
  match bs with
  | [] => Some []
  | b0 :: r0 =>
    if (b0 <? 128)%N then option_map (cons b0) (utf8 r0)
    else if in_range 194 223 b0 then
      match r0 with
      | b1 :: r1 =>
        if continuation b1
        then option_map (cons (N.shiftl (N.land b0 31) 6 + low6 b1)%N) (utf8 r1)
        else None
      | _ => None
      end
    else if in_range 224 239 b0 then
      match r0 with
      | b1 :: b2 :: r2 =>
        if in_range (if (b0 =? 224)%N then 160 else 128)
                    (if (b0 =? 237)%N then 159 else 191) b1
           && continuation b2
        then option_map
               (cons (N.shiftl (N.land b0 15) 12 + N.shiftl (low6 b1) 6
                      + low6 b2)%N) (utf8 r2)
        else None
      | _ => None
      end
    else if in_range 240 244 b0 then
      match r0 with
      | b1 :: b2 :: b3 :: r3 =>
        if in_range (if (b0 =? 240)%N then 144 else 128)
                    (if (b0 =? 244)%N then 143 else 191) b1
           && continuation b2 && continuation b3
        then option_map
               (cons (N.shiftl (N.land b0 7) 18 + N.shiftl (low6 b1) 12
                      + N.shiftl (low6 b2) 6 + low6 b3)%N) (utf8 r3)
        else None
      | _ => None
      end
    else None
  end.

Definition decode_utf8 (b : bytes) : result str :=
  match utf8 (map Byte.to_N b) with
  | Some s => Ok s
  | None => Raise UnicodeDecodeError
  end.

(** *** [str.strip()] with no argument: trims the code points for which
    [str.isspace] holds. *)

Definition isspace (c : N) : bool :=
  in_range 9 13 c || in_range 28 32 c || (c =? 133)%N || (c =? 160)%N
  || (c =? 5760)%N || in_range 8192 8202 c || (c =? 8232)%N
  || (c =? 8233)%N || (c =? 8239)%N || (c =? 8287)%N || (c =? 12288)%N.

Fixpoint lstrip (s : str) : str :=
  match s with
  | c :: r => if isspace c then lstrip r else s
  | [] => []
  end.

Definition rstrip (s : str) : str := rev (lstrip (rev s)).

Definition strip (s : str) : str := rstrip (lstrip s).

(** *** Run-time values a log stream can yield

    [exec_run(..., stream=True)] hands back an iterable whose items are
    byte chunks, [None], or (depending on the docker-py version) a
    generator of byte chunks.  A generator is represented by the finite
    list of the items it yields. *)

Inductive pyval :=
| PyNone
| PyBytes (b : bytes)
| PyStr (s : str)
| PyInt (z : Z)
| PyGenerator (items : list pyval).

Inductive pytype := NoneType | bytes_t | str_t | int_t | generator_t.

Definition type (v : pyval) : pytype :=
  match v with
  | PyNone => NoneType
  | PyBytes _ => bytes_t
  | PyStr _ => str_t
  | PyInt _ => int_t
  | PyGenerator _ => generator_t
  end.

(** Truth value, as tested by [not log]. *)
Definition truthy (v : pyval) : bool :=
  match v with
  | PyNone => false
  | PyBytes b => negb (Nat.eqb (List.length b) 0)
  | PyStr s => negb (Nat.eqb (List.length s) 0)
  | PyInt z => negb (Z.eqb z 0)
  | PyGenerator _ => true
  end.

Definition isinstance_GeneratorType (v : pyval) : bool :=
  match v with PyGenerator _ => true | _ => false end.

(** [v.decode('utf-8')]: only [bytes] has the attribute. *)
Definition decode (v : pyval) : result str :=
  match v with
  | PyBytes b => decode_utf8 b
  | _ => Raise AttributeError
  end.

End Py.
Import Py.

(* ================================================================= *)
(** ** [shlex.split(s)] in POSIX mode

    [split] builds a lexer with [posix=True], [whitespace_split=True],
    no commenters and no punctuation characters, and collects its tokens.
    [lex] is one pass of [shlex.read_token]'s character loop over the whole
    input; leaving the loop with a token ([break]) appends it to the output
    and resets the per-token variables. *)

Module Shlex.

Definition whitespace : str := [32; 9; 13; 10]%N.
Definition quotes : str := [39; 34]%N.
Definition escape : str := [92]%N.
Definition escapedquotes : str := [34]%N.

Definition isin (c : N) (cs : str) : bool := existsb (N.eqb c) cs.

(** Lexer state: the source stores a character in [self.state]. *)
Definition space : N := 32.   (* ' ' : between tokens *)
Definition word : N := 97.    (* 'a' : inside a word   *)

Record lexer := {
  state : N;
  token : str;
  quoted : bool;
  escapedstate : N;
  out : list str
}.

Definition start : lexer :=
  {| state := space; token := []; quoted := false; escapedstate := space;
     out := [] |}.

(** Leave [read_token] with the current token and enter it again. *)
Definition emit (st : N) (lx : lexer) : lexer :=
  {| state := st; token := []; quoted := false; escapedstate := space;
     out := out lx ++ [token lx] |}.

Definition has_token (lx : lexer) : bool :=
  negb (Nat.eqb (List.length (token lx)) 0) || quoted lx.

Definition step (nextchar : N) (lx : lexer) : lexer :=
  if (state lx =? space)%N then
    if isin nextchar whitespace then
      if has_token lx then emit space lx else lx
    else if isin nextchar escape then
      {| state := nextchar; token := token lx; quoted := quoted lx;
         escapedstate := word; out := out lx |}
    else if isin nextchar quotes then
      {| state := nextchar; token := token lx; quoted := quoted lx;
         escapedstate := escapedstate lx; out := out lx |}
    else
      {| state := word; token := [nextchar]; quoted := quoted lx;
         escapedstate := escapedstate lx; out := out lx |}
  else if isin (state lx) quotes then
    if (nextchar =? state lx)%N then
      {| state := word; token := token lx; quoted := true;
         escapedstate := escapedstate lx; out := out lx |}
    else if isin nextchar escape && isin (state lx) escapedquotes then
      {| state := nextchar; token := token lx; quoted := true;
         escapedstate := state lx; out := out lx |}
    else
      {| state := state lx; token := token lx ++ [nextchar]; quoted := true;
         escapedstate := escapedstate lx; out := out lx |}
  else if isin (state lx) escape then
    let tok :=
      if isin (escapedstate lx) quotes
         && negb (nextchar =? state lx)%N
         && negb (nextchar =? escapedstate lx)%N
      then token lx ++ [state lx] else token lx in
    {| state := escapedstate lx; token := tok ++ [nextchar];
       quoted := quoted lx; escapedstate := escapedstate lx; out := out lx |}
  else (* state 'a' *)
    if isin nextchar whitespace then
      if has_token lx then emit space lx
      else {| state := space; token := token lx; quoted := quoted lx;
              escapedstate := escapedstate lx; out := out lx |}
    else if isin nextchar quotes then
      {| state := nextchar; token := token lx; quoted := quoted lx;
         escapedstate := escapedstate lx; out := out lx |}
    else if isin nextchar escape then
      {| state := nextchar; token := token lx; quoted := quoted lx;
         escapedstate := word; out := out lx |}
    else
      {| state := state lx; token := token lx ++ [nextchar];
         quoted := quoted lx; escapedstate := escapedstate lx;
         out := out lx |}.

(** End of input. *)
Definition eof (lx : lexer) : result (list str) :=
  if (state lx =? space)%N || (state lx =? word)%N then
    Ok (if has_token lx then out lx ++ [token lx] else out lx)
  else if isin (state lx) quotes then
    Raise (ValueError (py "No closing quotation"))
  else
    Raise (ValueError (py "No escaped character")).

Fixpoint lex (s : str) (lx : lexer) : result (list str) :=
  match s with
  | [] => eof lx
  | nextchar :: rest => lex rest (step nextchar lx)
  end.

Definition split (s : str) : result (list str) := lex s start.

End Shlex.

(** ** [_containerized_cmd] *)

Definition _containerized_cmd (entrypoint package executable : str)
  : result (list str) :=
  match Shlex.split entrypoint with
  | Ok tokens => Ok (tokens ++ [py "ros2"; py "run"; package; executable])
  | Raise e => Raise e
  end.

(* ================================================================= *)
(** ** Collaborators *)

(** Handles of objects owned by collaborators. *)
Definition Container := N.
Definition Future := N.
Definition Task := N.

(** [launch] substitutions; how one is resolved is the context's business. *)
Inductive Substitution :=
| TextSubstitution (text : str)
| LaunchConfiguration (variable_name : str).

Record SandboxedNode := {
  package : list Substitution;
  node_executable : list Substitution
}.

Record DockerPolicy := {
  image_name : str;
  repository : str;
  tag : str;
  container_name : str;
  entrypoint : str;
  run_args : option (list (str * str))
}.

(** The asyncio loop hands out the objects it creates. *)
Record Loop := {
  create_future : Future;
  create_task : Task
}.

Record LaunchContext := {
  perform_substitution : Substitution -> str;
  asyncio_loop : Loop
}.

Definition perform_substitutions (context : LaunchContext)
    (subs : list Substitution) : str :=
  List.concat (map (perform_substitution context) subs).

(** The Docker daemon, as seen through docker-py: what each call answers.
    The one failure the module documents and handles for [images.pull] and
    [containers.run] is [ImageNotFound]; other failures of the daemon are
    outside this model.  [exec_run] with [stream=True] returns the process's
    output stream. *)
Inductive answer (A : Type) :=
| Done (a : A)
| NotFound (msg : str).
Arguments Done {A} a.
Arguments NotFound {A} msg.

Definition answered {A} (a : answer A) : result A :=
  match a with
  | Done a => Ok a
  | NotFound msg => Raise (ImageNotFound msg)
  end.

Record DockerClient := {
  images_pull : str -> str -> answer unit;
  containers_run : str -> str -> list (str * str) -> answer Container;
  exec_run : Container -> list str -> list pyval
}.

(** [concurrent.futures.ThreadPoolExecutor] *)
Record ThreadPoolExecutor := {
  _max_workers : Z;
  _shutdown : bool
}.

Definition ThreadPoolExecutor_init (max_workers : Z)
  : result ThreadPoolExecutor :=
  if (max_workers <=? 0)%Z
  then Raise (ValueError (py "max_workers must be greater than 0"))
  else Ok {| _max_workers := max_workers; _shutdown := false |}.

(** *** Observable calls *)

Inductive level := INFO | DEBUG | WARN | ERROR | EXCEPTION.

Inductive fmtarg :=
| AStr (s : str)
| AList (l : list str)
| AType (t : pytype).

(** A logged message: a string, a ['...'.format(...)] with its arguments,
    or an exception object. *)
Inductive message :=
| Text (s : str)
| Format (template : str) (args : list fmtarg)
| OfExn (e : exn).

Inductive event :=
| Log (lvl : level) (msg : message)
| ImagesPull (repository tag : str)
| ContainersRun (image name : str) (kwargs : list (str * str))
| ExecRun (c : Container) (cmd : list str)
| RunInExecutor (log_generator : list pyval)
| ExecutorShutdown
| TaskCancel (t : Task)
| FutureCancel (f : Future)
| ContainerStop (c : Container)
| LockAcquire
| LockRelease
| RegisterOnShutdown
| CreateFuture (f : Future)
| CreateTask (t : Task).

(* ================================================================= *)
(** ** The action's fields *)

Record LoadDockerNodes := {
  _policy : DockerPolicy;
  _node_descriptions : list SandboxedNode;
  _completed_future : option Future;
  _started_task : option Task;
  _container : option Container;
  _docker_client : DockerClient;
  _executor : ThreadPoolExecutor
}.

Definition set_completed_future (v : option Future) (self : LoadDockerNodes) :=
  {| _policy := _policy self; _node_descriptions := _node_descriptions self;
     _completed_future := v; _started_task := _started_task self;
     _container := _container self; _docker_client := _docker_client self;
     _executor := _executor self |}.

Definition set_started_task (v : option Task) (self : LoadDockerNodes) :=
  {| _policy := _policy self; _node_descriptions := _node_descriptions self;
     _completed_future := _completed_future self; _started_task := v;
     _container := _container self; _docker_client := _docker_client self;
     _executor := _executor self |}.

Definition set_container (v : option Container) (self : LoadDockerNodes) :=
  {| _policy := _policy self; _node_descriptions := _node_descriptions self;
     _completed_future := _completed_future self;
     _started_task := _started_task self;
     _container := v; _docker_client := _docker_client self;
     _executor := _executor self |}.

Definition set_executor (v : ThreadPoolExecutor) (self : LoadDockerNodes) :=
  {| _policy := _policy self; _node_descriptions := _node_descriptions self;
     _completed_future := _completed_future self;
     _started_task := _started_task self;
     _container := _container self; _docker_client := _docker_client self;
     _executor := v |}.

(* ================================================================= *)
(** ** The method monad: fields, trace of calls, exceptions *)

Definition M (A : Type) : Type :=
  LoadDockerNodes -> result A * LoadDockerNodes * list event.

Definition ret {A} (a : A) : M A := fun self => (Ok a, self, []).

Definition bind {A B} (m : M A) (k : A -> M B) : M B :=
  fun self =>
    match m self with
    | (Ok a, self', t) =>
      let '(r, self'', t') := k a self' in (r, self'', t ++ t')
    | (Raise e, self', t) => (Raise e, self', t)
    end.

Declare Scope method_scope.
Delimit Scope method_scope with method.
Notation "x <- m ;; k" := (bind m (fun x => k))
  (at level 61, m at next level, right associativity) : method_scope.
Notation "m ;; k" := (bind m (fun _ => k))
  (at level 61, right associativity) : method_scope.
Open Scope method_scope.

Definition get : M LoadDockerNodes := fun self => (Ok self, self, []).

Definition modify (f : LoadDockerNodes -> LoadDockerNodes) : M unit :=
  fun self => (Ok tt, f self, []).

Definition call (e : event) : M unit := fun self => (Ok tt, self, [e]).

Definition raise {A} (e : exn) : M A := fun self => (Raise e, self, []).

Definition lift {A} (r : result A) : M A := fun self => (r, self, []).

(** [try: body / except <handled>: handler]; [handler e = None] when the
    except clause does not match [e]. *)
Definition try_except {A} (body : M A) (handler : exn -> option (M A)) : M A :=
  fun self =>
    match body self with
    | (Raise e, self', t) =>
      match handler e with
      | Some h => let '(r, self'', t') := h self' in (r, self'', t ++ t')
      | None => (Raise e, self', t)
      end
    | done => done
    end.

(** [with self._shutdown_lock: body]; the lock is released on every exit. *)
Definition with_shutdown_lock {A} (body : M A) : M A :=
  fun self =>
    let '(r, self', t) := body self in
    (r, self', [LockAcquire] ++ t ++ [LockRelease]).

(** [for x in xs: body] *)
Fixpoint for_each {A} (xs : list A) (body : A -> M unit) : M unit :=
  match xs with
  | [] => ret tt
  | x :: rest => body x ;; for_each rest body
  end.

Definition logger (lvl : level) (msg : message) : M unit := call (Log lvl msg).

(** The three components of a method's run. *)
Definition result_of {A} (x : result A * LoadDockerNodes * list event)
  : result A := fst (fst x).
Definition self_of {A} (x : result A * LoadDockerNodes * list event)
  : LoadDockerNodes := snd (fst x).
Definition trace_of {A} (x : result A * LoadDockerNodes * list event)
  : list event := snd x.

(* ================================================================= *)
(** ** Methods of [LoadDockerNodes] *)

(** [__init__]: [docker_from_env] is the client [docker.from_env()] returns.
    The executor is built last; its constructor rejects a pool without
    workers. *)
Definition __init__ (docker_from_env : DockerClient) (policy : DockerPolicy)
    (node_descriptions : list SandboxedNode) : result LoadDockerNodes :=
  match ThreadPoolExecutor_init (Z.of_nat (List.length node_descriptions)) with
  | Ok executor =>
    Ok {| _policy := policy;
          _node_descriptions := node_descriptions;
          _completed_future := None;
          _started_task := None;
          _container := None;
          _docker_client := docker_from_env;
          _executor := executor |}
  | Raise e => Raise e
  end.

Definition _pull_docker_image : M unit :=
  self <- get ;;
  logger INFO (Format (py "Pulling image {}")
                      [AStr (image_name (_policy self))]) ;;
  call (ImagesPull (repository (_policy self)) (tag (_policy self))) ;;
  lift (answered (images_pull (_docker_client self)
                              (repository (_policy self)) (tag (_policy self)))).

(** [d or {}] *)
Definition or_empty (d : option (list (str * str))) : list (str * str) :=
  match d with
  | Some kwargs => kwargs
  | None => []
  end.

(** The keywords [_start_docker_container] writes in its call of
    [containers.run]. *)
Definition call_keywords : list str :=
  [py "detach"; py "auto_remove"; py "tty"; py "name"].

(** [f(..., k=v, **d)] with [k] a key of [d]: Python raises [TypeError]
    (multiple values for a keyword argument) and [f] is not entered. *)
Definition repeats_keyword (kwargs : list (str * str)) : bool :=
  existsb (fun kv => existsb (str_eqb (fst kv)) call_keywords) kwargs.

Definition _start_docker_container : M unit :=
  self <- get ;;
  let tmp_run_args := or_empty (run_args (_policy self)) in
  if repeats_keyword tmp_run_args then raise TypeError else
  call (ContainersRun (image_name (_policy self))
                      (container_name (_policy self)) tmp_run_args) ;;
  c <- lift (answered (containers_run (_docker_client self)
                                      (image_name (_policy self))
                                      (container_name (_policy self))
                                      tmp_run_args)) ;;
  modify (set_container (Some c)) ;;
  logger INFO (Format (py "Running Docker container: " ++ dq ++ py "{}" ++ dq)
                      [AStr (container_name (_policy self))]).

(** [self.__logger.info(v.decode('utf-8').strip())] *)
Definition info_decoded (v : pyval) : M unit :=
  s <- lift (decode v) ;;
  logger INFO (Text (strip s)).

(** Body of the [for log in log_generator] loop. *)
Definition handle_log (log : pyval) : M unit :=
  if negb (truthy log) then ret tt
  else
    match log with
    | PyGenerator items => for_each items info_decoded
    | _ =>
      try_except (info_decoded log)
        (fun e =>
           match e with
           | UnicodeDecodeError | AttributeError =>
             Some (logger EXCEPTION
                     (Format (py "Unable to print log of type {}")
                             [AType (type log)]))
           | _ => None
           end)
    end.

Definition _handle_logs (log_generator : list pyval) : M unit :=
  for_each log_generator handle_log.

(** [loop.run_in_executor(self._executor, self._handle_logs, g)]: the pool
    refuses work once it has been shut down. *)
Definition run_in_executor (log_generator : list pyval) : M unit :=
  self <- get ;;
  if _shutdown (_executor self)
  then raise (RuntimeError (py "cannot schedule new futures after shutdown"))
  else call (RunInExecutor log_generator).

Definition no_active_container : str :=
  py ("Unable to load nodes into Docker container: "
      ++ "no active Docker container!").

(** Body of the [for description in self._node_descriptions] loop. *)
Definition load_node (context : LaunchContext) (description : SandboxedNode)
  : M unit :=
  let package_name := perform_substitutions context (package description) in
  let executable_name :=
    perform_substitutions context (node_executable description) in
  self <- get ;;
  cmd <- lift (_containerized_cmd (entrypoint (_policy self))
                                  package_name executable_name) ;;
  match _container self with
  | None => raise AttributeError
  | Some container =>
    call (ExecRun container cmd) ;;
    let log_generator := exec_run (_docker_client self) container cmd in
    run_in_executor log_generator ;;
    logger DEBUG (Format (py "Running " ++ dq ++ py "{}" ++ dq
                          ++ py " in container: " ++ dq ++ py "{}" ++ dq)
                         [AList cmd; AStr (container_name (_policy self))])
  end.

Definition _load_nodes_in_docker (context : LaunchContext) : M unit :=
  self <- get ;;
  match _container self with
  | None =>
    logger ERROR (Text no_active_container)
  | Some _ =>
    for_each (_node_descriptions self) (load_node context)
  end.

(** The [with self._shutdown_lock] block of the start failure. *)
Definition cancel_completed_future : M unit :=
  with_shutdown_lock
    (self <- get ;;
     match _completed_future self with
     | Some f =>
       call (FutureCancel f) ;;
       modify (set_completed_future None)
     | None => ret tt
     end).

(** How a [try] block that may [return] from the enclosing function ends. *)
Inductive flow := Next | Return.

Definition _start_docker_nodes (context : LaunchContext) : M unit :=
  try_except _pull_docker_image
    (fun ex =>
       match ex with
       | ImageNotFound _ =>
         Some (self <- get ;;
               logger WARN
                 (Format (py "Image " ++ dq ++ py "{}" ++ dq
                          ++ py " could not be pulled but may be found locally.")
                         [AStr (image_name (_policy self))]) ;;
               logger DEBUG (OfExn ex))
       | _ => None
       end) ;;
  started <-
    try_except (_start_docker_container ;; ret Next)
      (fun ex =>
         match ex with
         | ImageNotFound _ =>
           Some (self <- get ;;
                 logger ERROR
                   (Format (py "Image " ++ dq ++ py "{}" ++ dq
                            ++ py " could not be found; execution of container "
                            ++ dq ++ py "{}" ++ dq ++ py " failed.")
                           [AStr (image_name (_policy self));
                            AStr (container_name (_policy self))]) ;;
                 logger DEBUG (OfExn ex) ;;
                 cancel_completed_future ;;
                 ret Return)
         | _ => None
         end) ;;
  match started with
  | Return => ret tt
  | Next => _load_nodes_in_docker context
  end.

Definition get_asyncio_future (self : LoadDockerNodes) : option Future :=
  _completed_future self.

Definition execute (context : LaunchContext) : M (option (list unit)) :=
  call RegisterOnShutdown ;;
  let f := create_future (asyncio_loop context) in
  call (CreateFuture f) ;;
  modify (set_completed_future (Some f)) ;;
  let t := create_task (asyncio_loop context) in
  call (CreateTask t) ;;
  modify (set_started_task (Some t)) ;;
  ret None.

(** [Task.cancel()] answers a boolean; asyncio never raises from it. *)
Definition Task_cancel (t : Task) : M bool :=
  call (TaskCancel t) ;; ret true.

Definition executor_shutdown : M unit :=
  call ExecutorShutdown ;;
  modify (fun self =>
            set_executor {| _max_workers := _max_workers (_executor self);
                            _shutdown := true |} self).

(** [__on_shutdown(event, context)]; neither argument is used. *)
Definition __on_shutdown : M (option unit) :=
  with_shutdown_lock
    (self <- get ;;
     match _started_task self with
     | Some t =>
       try_except (Task_cancel t ;; ret tt)
         (fun ex =>
            match ex with
            | CancelledError => Some (modify (set_started_task None))
            | _ => None
            end)
     | None => ret tt
     end ;;
     self <- get ;;
     match _completed_future self with
     | Some f =>
       executor_shutdown ;;
       call (FutureCancel f) ;;
       modify (set_completed_future None) ;;
       self <- get ;;
       match _container self with
       | Some c =>
         call (ContainerStop c) ;;
         modify (set_container None)
       | None => ret tt
       end
     | None => ret tt
     end) ;;
  ret None.

(* ================================================================= *)
(** ** Reading a trace *)

Definition exec_commands (t : list event) : list (list str) :=
  flat_map (fun e => match e with ExecRun _ cmd => [cmd] | _ => [] end) t.

(** The log streams handed to a pool worker running [_handle_logs]. *)
Definition log_workers (t : list event) : list (list pyval) :=
  flat_map (fun e => match e with RunInExecutor g => [g] | _ => [] end) t.

Definition is_cancel_of (f : Future) (e : event) : bool :=
  match e with
  | FutureCancel g => (g =? f)%N
  | _ => false
  end.

(** How many times [cancel()] was called on future [f]. *)
Definition cancellations (f : Future) (t : list event) : nat :=
  List.length (filter (is_cancel_of f) t).

Definition is_future_cancel (e : event) : bool :=
  match e with FutureCancel _ => true | _ => false end.

Definition is_container_stop (e : event) : bool :=
  match e with ContainerStop _ => true | _ => false end.

Definition logged (lvl : level) (t : list event) : list message :=
  flat_map (fun e =>
              match e, lvl with
              | Log INFO m, INFO | Log DEBUG m, DEBUG | Log WARN m, WARN
              | Log ERROR m, ERROR | Log EXCEPTION m, EXCEPTION => [m]
              | _, _ => []
              end) t.

(* ================================================================= *)
(** ** One sandbox lifecycle: the startup task against shutdown

    [execute] creates the future and the task.  The task's body has no
    suspension point of its own; what can run between two of its statements
    is the shutdown handler, called from another thread, and the two
    [with self._shutdown_lock] blocks exclude each other.  The task is
    therefore cut at its statements, with each locked block one step. *)

Inductive task_pc :=
| Pending                              (* created, body not entered *)
| Pulled                               (* after the first try block *)
| StartFailed                          (* in the handler, before the lock *)
| Started                              (* about to load the nodes *)
| Loading (rest : list SandboxedNode)  (* inside the for loop *)
| Finished (r : result unit)
| Cancelled.                           (* cancelled before it ever ran *)

Record lifecycle := {
  this : LoadDockerNodes;
  pc : task_pc;
  trace : list event
}.

(** The first try block of [_start_docker_nodes]. *)
Definition try_pull : M unit :=
  try_except _pull_docker_image
    (fun ex =>
       match ex with
       | ImageNotFound _ =>
         Some (self <- get ;;
               logger WARN
                 (Format (py "Image " ++ dq ++ py "{}" ++ dq
                          ++ py " could not be pulled but may be found locally.")
                         [AStr (image_name (_policy self))]) ;;
               logger DEBUG (OfExn ex))
       | _ => None
       end).

(** The second try block, up to the lock. *)
Definition try_start : M flow :=
  try_except (_start_docker_container ;; ret Next)
    (fun ex =>
       match ex with
       | ImageNotFound _ =>
         Some (self <- get ;;
               logger ERROR
                 (Format (py "Image " ++ dq ++ py "{}" ++ dq
                          ++ py " could not be found; execution of container "
                          ++ dq ++ py "{}" ++ dq ++ py " failed.")
                         [AStr (image_name (_policy self));
                          AStr (container_name (_policy self))]) ;;
               logger DEBUG (OfExn ex) ;;
               ret Return)
       | _ => None
       end).

(** The test that opens [_load_nodes_in_docker]. *)
Definition enter_load : M bool :=
  self <- get ;;
  match _container self with
  | None =>
    logger ERROR (Text no_active_container) ;;
    ret false
  | Some _ => ret true
  end.

Definition advance {A} (m : M A) (next : LoadDockerNodes -> result A -> task_pc)
    (l : lifecycle) : lifecycle :=
  let '(r, self', t) := m (this l) in
  {| this := self'; pc := next (this l) r; trace := trace l ++ t |}.

Definition on_ok {A} (k : A -> task_pc) (r : result A) : task_pc :=
  match r with
  | Ok a => k a
  | Raise e => Finished (Raise e)
  end.

Definition task_step (context : LaunchContext) (l : lifecycle) : lifecycle :=
  match pc l with
  | Pending => advance try_pull (fun _ => on_ok (fun _ => Pulled)) l
  | Pulled =>
    advance try_start
      (fun _ => on_ok (fun fl => match fl with
                                 | Next => Started
                                 | Return => StartFailed
                                 end)) l
  | StartFailed => advance cancel_completed_future (fun _ r => Finished r) l
  | Started =>
    advance enter_load
      (fun self => on_ok (fun go => if go : bool
                                    then Loading (_node_descriptions self)
                                    else Finished (Ok tt))) l
  | Loading [] =>
    {| this := this l; pc := Finished (Ok tt); trace := trace l |}
  | Loading (description :: rest) =>
    advance (load_node context description)
            (fun _ => on_ok (fun _ => Loading rest)) l
  | Finished _ | Cancelled => l
  end.

(** A shutdown notification: the handler runs as one locked block.  A task
    whose body has not been entered when [cancel()] reaches it never runs. *)
Definition shutdown_step (l : lifecycle) : lifecycle :=
  let '(_, self', t) := __on_shutdown (this l) in
  {| this := self';
     pc := match pc l, _started_task (this l) with
           | Pending, Some _ => Cancelled
           | p, _ => p
           end;
     trace := trace l ++ t |}.

Inductive label := TaskStep | Shutdown.

Definition lifecycle_step (context : LaunchContext) (a : label)
    (l : lifecycle) : lifecycle :=
  match a with
  | TaskStep => task_step context l
  | Shutdown => shutdown_step l
  end.

Definition run_schedule (context : LaunchContext) (schedule : list label)
    (l : lifecycle) : lifecycle :=
  fold_left (fun l a => lifecycle_step context a l) schedule l.

(** The lifecycle right after [execute(context)]. *)
Definition launched (context : LaunchContext) (self : LoadDockerNodes)
  : lifecycle :=
  let '(_, self', t) := execute context self in
  {| this := self'; pc := Pending; trace := t |}.

(* ================================================================= *)
(** ** The log pump's contract, in the specification's words

    An empty or absent chunk forwards nothing; a nested sequence forwards one
    decoded, trimmed line per inner byte chunk; a plain byte chunk forwards
    one decoded, trimmed line. *)

Inductive forwards : pyval -> list str -> Prop :=
| forwards_nothing (log : pyval) :
    truthy log = false -> forwards log []
| forwards_nested (items : list pyval) (lines : list str) :
    Forall2 (fun item line =>
               exists b text,
                 item = PyBytes b /\ decode_utf8 b = Ok text /\
                 line = strip text) items lines ->
    forwards (PyGenerator items) lines
| forwards_plain (b : bytes) (text : str) :
    b <> [] -> decode_utf8 b = Ok text ->
    forwards (PyBytes b) [strip text].

(* ================================================================= *)
(** ** Statements about the action *)

(** The command the node launcher is to build for one node: the entrypoint's
    tokens, the launcher prefix, the resolved package and executable. *)
Definition node_command (context : LaunchContext) (tokens : list str)
    (description : SandboxedNode) : list str :=
  tokens ++ [py "ros2"; py "run";
             perform_substitutions context (package description);
             perform_substitutions context (node_executable description)].

(** The same action in front of a daemon that answers [a] to every pull. *)
Definition pull_answers (a : answer unit) (self : LoadDockerNodes)
  : LoadDockerNodes :=
  {| _policy := _policy self; _node_descriptions := _node_descriptions self;
     _completed_future := _completed_future self;
     _started_task := _started_task self;
     _container := _container self;
     _docker_client :=
       {| images_pull := fun _ _ => a;
          containers_run := containers_run (_docker_client self);
          exec_run := exec_run (_docker_client self) |};
     _executor := _executor self |}.

(** "Whenever the shutdown handler runs with a container handle present, it
    stops that container and clears the reference", for one state of the
    action. *)
Definition stops_present_container (self : LoadDockerNodes) : Prop :=
  forall c,
    _container self = Some c ->
    In (ContainerStop c) (trace_of (__on_shutdown self)) /\
    _container (self_of (__on_shutdown self)) = None.

(** "A decoding or type error on any chunk is caught, logged as exactly one
    diagnostic naming the chunk's type, and every later chunk is still
    processed", for one stream: the pump returns normally. *)
Definition pump_survives (log_generator : list pyval) (self : LoadDockerNodes)
  : Prop :=
  result_of (_handle_logs log_generator self) = Ok tt.

(** [m] neither assigns [_completed_future] nor cancels any future. *)
Definition keeps_future {A} (m : M A) : Prop :=
  forall self,
    _completed_future (self_of (m self)) = _completed_future self /\
    filter is_future_cancel (trace_of (m self)) = [].

(** The lifecycle invariant on the completion future

    Either the field still holds the future [execute] created and nothing
    has been cancelled, or the field is cleared and the trace holds at most
    one [cancel()], on that future. *)

Definition future_inv (f : Future) (l : lifecycle) : Prop :=
  (_completed_future (this l) = Some f /\
   filter is_future_cancel (trace l) = [])
  \/
  (_completed_future (this l) = None /\
   (filter is_future_cancel (trace l) = [] \/
    filter is_future_cancel (trace l) = [FutureCancel f])).

(* ================================================================= *)
(** ** Sample objects *)

Module Sample.

Definition policy : DockerPolicy :=
  {| image_name := py "osrf/ros:dashing-desktop";
     repository := py "osrf/ros";
     tag := py "dashing-desktop";
     container_name := py "sbx1";
     entrypoint := py "bash -c";
     run_args := None |}.

Definition talker : SandboxedNode :=
  {| package := [TextSubstitution (py "demo_pkg")];
     node_executable := [TextSubstitution (py "talker")] |}.

Definition context : LaunchContext :=
  {| perform_substitution :=
       fun sub => match sub with
                  | TextSubstitution text => text
                  | LaunchConfiguration _ => []
                  end;
     asyncio_loop := {| create_future := 1%N; create_task := 2%N |} |}.

(** A daemon on which everything works; the node prints two chunks. *)
Definition docker (pull : answer unit) (run : answer Container)
  : DockerClient :=
  {| images_pull := fun _ _ => pull;
     containers_run := fun _ _ _ => run;
     exec_run := fun _ _ =>
       [PyNone; PyGenerator [PyBytes [x68; x69; x0a]; PyBytes [xe2; x82; xac]]]
  |}.

Definition action (pull : answer unit) (run : answer Container)
  : LoadDockerNodes :=
  {| _policy := policy;
     _node_descriptions := [talker];
     _completed_future := None;
     _started_task := None;
     _container := None;
     _docker_client := docker pull run;
     _executor := {| _max_workers := 1; _shutdown := false |} |}.

(** Shutdown arrives between the pull and the start of the container. *)
Definition raced : lifecycle :=
  run_schedule context [TaskStep; Shutdown; TaskStep]
    (launched context (action (Done tt) (Done 7%N))).

(** A stream whose nested chunk holds bytes that are not UTF-8. *)
Definition broken_stream : list pyval :=
  [PyGenerator [PyBytes [xff]]; PyBytes [x6f; x6b]].



End Sample.

(* ================================================================= *)
(** ** Further readings of a trace and of an entrypoint *)

Definition count (p : event -> bool) (t : list event) : nat :=
  List.length (filter p t).

Definition is_pull (e : event) : bool :=
  match e with ImagesPull _ _ => true | _ => false end.

Definition is_run (e : event) : bool :=
  match e with ContainersRun _ _ _ => true | _ => false end.

Definition is_exec (e : event) : bool :=
  match e with ExecRun _ _ => true | _ => false end.

Definition is_worker (e : event) : bool :=
  match e with RunInExecutor _ => true | _ => false end.

(** Calls that reach the Docker daemon to bring something up. *)
Definition is_docker_call (e : event) : bool :=
  is_pull e || is_run e || is_exec e.

(** The lines forwarded to [logger.info] as plain text. *)
Definition info_lines (t : list event) : list str :=
  flat_map (fun e => match e with Log INFO (Text s) => [s] | _ => [] end) t.

(** Every event the pump logs: forwarded lines and diagnostics. *)
Definition is_log (e : event) : bool :=
  match e with Log _ _ => true | _ => false end.

(** A line with no white space at either end. *)
Definition trimmed (line : str) : bool :=
  match line with
  | [] => true
  | c :: _ => negb (isspace c) && negb (isspace (last line c))
  end.

(** An entrypoint with no quote and no backslash. *)
Definition unquoted (s : str) : bool :=
  forallb (fun c => negb (Shlex.isin c Shlex.quotes)
                    && negb (Shlex.isin c Shlex.escape)) s.

(** An entrypoint made of shell white space only. *)
Definition blank (s : str) : bool :=
  forallb (fun c => Shlex.isin c Shlex.whitespace) s.

(** A token that is not empty and holds no shell white space. *)
Definition shell_word (tok : str) : bool :=
  negb (Nat.eqb (List.length tok) 0)
  && forallb (fun c => negb (Shlex.isin c Shlex.whitespace)) tok.

(** An entrypoint that ends with a lone backslash or inside a quotation,
    with the message [shlex] gives. *)
Inductive unterminated : str -> str -> Prop :=
| lone_backslash (s : str) :
    unquoted s = true ->
    unterminated (s ++ Shlex.escape) (py "No escaped character")
| open_quotation (s : str) (q : N) (u : str) :
    unquoted s = true ->
    Shlex.isin q Shlex.quotes = true ->
    forallb (fun c => negb (c =? q)%N && negb (Shlex.isin c Shlex.escape)) u
      = true ->
    unterminated (s ++ q :: u) (py "No closing quotation").

(** The white-space separated words of [s], with [cur] the word being
    read. *)
Fixpoint words_from (cur : str) (s : str) : list str :=
  match s with
  | [] => match cur with [] => [] | _ => [cur] end
  | c :: rest =>
    if Shlex.isin c Shlex.whitespace
    then match cur with
         | [] => words_from [] rest
         | _ => cur :: words_from [] rest
         end
    else words_from (cur ++ [c]) rest
  end.

Definition words (s : str) : list str := words_from [] s.


(** "Any other chunk forwards exactly one decoded, trimmed line", for one
    chunk that is neither empty nor a nested sequence. *)
Definition forwards_one_line (log : pyval) (self : LoadDockerNodes) : Prop :=
  exists line,
    flat_map (fun e => match e with Log INFO (Text s) => [s] | _ => [] end)
             (trace_of (handle_log log self)) = [line].

(** The exceptions the node launch can raise. *)
Definition launch_error (e : exn) : bool :=
  match e with
  | ValueError _ | RuntimeError _ | AttributeError => true
  | _ => false
  end.

(** The lexer after the characters of [s]. *)
Definition lexed (s : str) (lx : Shlex.lexer) : Shlex.lexer :=
  fold_left (fun lx c => Shlex.step c lx) s lx.

(** The lexer is between tokens or inside an unquoted word. *)
Definition calm (lx : Shlex.lexer) : Prop :=
  Shlex.quoted lx = false /\
  forallb shell_word (Shlex.out lx) = true /\
  ((Shlex.state lx = Shlex.space /\ Shlex.token lx = []) \/
   (Shlex.state lx = Shlex.word /\ shell_word (Shlex.token lx) = true)).

(** *** Lifecycle invariants *)

(** How far the startup task is, against what the trace holds: one pull
    once the first block is passed, one [containers.run] once the second
    is (none if the call was rejected), and one [exec_run] and one pool
    worker per node the loop has passed. *)
Definition progress_inv (nodes : list SandboxedNode) (l : lifecycle) : Prop :=
  _node_descriptions (this l) = nodes /\
  match pc l with
  | Pending | Cancelled =>
    count is_pull (trace l) = 0 /\ count is_run (trace l) = 0 /\
    count is_exec (trace l) = 0 /\ count is_worker (trace l) = 0
  | Pulled =>
    count is_pull (trace l) = 1 /\ count is_run (trace l) = 0 /\
    count is_exec (trace l) = 0 /\ count is_worker (trace l) = 0
  | StartFailed | Started =>
    count is_pull (trace l) = 1 /\ count is_run (trace l) = 1 /\
    count is_exec (trace l) = 0 /\ count is_worker (trace l) = 0
  | Loading rest =>
    count is_pull (trace l) = 1 /\ count is_run (trace l) = 1 /\
    count is_worker (trace l) = count is_exec (trace l) /\
    count is_exec (trace l) + List.length rest = List.length nodes
  | Finished _ =>
    count is_pull (trace l) = 1 /\ count is_run (trace l) <= 1 /\
    count is_worker (trace l) <= count is_exec (trace l) /\
    count is_exec (trace l) <= List.length nodes
  end.

(** The container is stopped only while the future is set, and the future
    is cleared with it. *)
Definition stop_inv (l : lifecycle) : Prop :=
  (_completed_future (this l) <> None /\
   count is_container_stop (trace l) = 0)
  \/
  (_completed_future (this l) = None /\
   count is_container_stop (trace l) <= 1).

(** Nothing more will be handed to the pool: it is shut down, or the task
    is over. *)
Definition retired (l : lifecycle) : Prop :=
  _shutdown (_executor (this l)) = true \/
  (exists r, pc l = Finished r) \/
  pc l = Cancelled.

(* ================================================================= *)
(** ** Reasoning about methods *)

(** Unfolds the monad's operations. *)
Ltac run_method :=
  cbv [bind ret get modify call raise lift logger try_except
       with_shutdown_lock result_of self_of trace_of] in *;
  cbn [fst snd app] in *.

Lemma for_each_cons {A} (x : A) (rest : list A) (body : A -> M unit) self :
  for_each (x :: rest) body self =
  match body x self with
  | (Ok _, self', t) =>
    let '(r, self'', t') := for_each rest body self' in (r, self'', t ++ t')
  | (Raise e, self', t) => (Raise e, self', t)
  end.
Proof.
  cbn [for_each]. unfold bind. destruct (body x self) as [[[[]|e] self'] t];
    reflexivity.
Qed.

(** *** Methods that leave the completion future alone *)

Lemma keeps_ret {A} (a : A) : keeps_future (ret a).
Proof. intro self. split; reflexivity. Qed.

Lemma keeps_get : keeps_future get.
Proof. intro self. split; reflexivity. Qed.

Lemma keeps_raise {A} e : keeps_future (@raise A e).
Proof. intro self. split; reflexivity. Qed.

Lemma keeps_lift {A} (r : result A) : keeps_future (lift r).
Proof. intro self. split; reflexivity. Qed.

Lemma keeps_call e : is_future_cancel e = false -> keeps_future (call e).
Proof. intros H self. split; [reflexivity|]. cbn. rewrite H. reflexivity. Qed.

Lemma keeps_logger lvl msg : keeps_future (logger lvl msg).
Proof. apply keeps_call. reflexivity. Qed.

Lemma keeps_modify f :
  (forall self, _completed_future (f self) = _completed_future self) ->
  keeps_future (modify f).
Proof. intros H self. split; [apply H | reflexivity]. Qed.

Lemma keeps_bind {A B} (m : M A) (k : A -> M B) :
  keeps_future m -> (forall a, keeps_future (k a)) -> keeps_future (bind m k).
Proof.
  intros Hm Hk self. specialize (Hm self). unfold bind.
  destruct (m self) as [[[a|e] self1] t1]; cbn in Hm; [|exact Hm].
  specialize (Hk a self1). destruct (k a self1) as [[r self2] t2].
  cbn in *. destruct Hm as [Hm1 Hm2], Hk as [Hk1 Hk2].
  split; [congruence|]. rewrite filter_app, Hm2, Hk2. reflexivity.
Qed.

Lemma keeps_try_except {A} (body : M A) handler :
  keeps_future body ->
  (forall e h, handler e = Some h -> keeps_future h) ->
  keeps_future (try_except body handler).
Proof.
  intros Hb Hh self. specialize (Hb self). unfold try_except.
  destruct (body self) as [[[a|e] self1] t1]; cbn in Hb; [exact Hb|].
  destruct (handler e) as [h|] eqn:E; [|exact Hb].
  specialize (Hh e h E self1). destruct (h self1) as [[r self2] t2].
  cbn in *. destruct Hb as [Hb1 Hb2], Hh as [Hh1 Hh2].
  split; [congruence|]. rewrite filter_app, Hb2, Hh2. reflexivity.
Qed.

Lemma keeps_for_each {A} (xs : list A) body :
  (forall x, keeps_future (body x)) -> keeps_future (for_each xs body).
Proof.
  intro H. induction xs as [|x rest IH]; cbn [for_each].
  - apply keeps_ret.
  - apply keeps_bind; [apply H | intros _; exact IH].
Qed.

Ltac frame :=
  repeat first
    [ apply keeps_ret | apply keeps_get | apply keeps_raise | apply keeps_lift
    | apply keeps_logger
    | apply keeps_call; reflexivity
    | apply keeps_modify; reflexivity
    | apply keeps_bind; [|intro]
    | apply keeps_for_each; intro
    | match goal with
      | |- keeps_future (match ?x with _ => _ end) => destruct x
      end ].

Lemma keeps_try_pull : keeps_future try_pull.
Proof.
  unfold try_pull, _pull_docker_image. apply keeps_try_except; [frame|].
  intros [] h E; inversion E; subst; frame.
Qed.

Lemma keeps_try_start : keeps_future try_start.
Proof.
  unfold try_start, _start_docker_container.
  apply keeps_try_except; [frame|].
  intros [] h E; inversion E; subst; frame.
Qed.

Lemma keeps_enter_load : keeps_future enter_load.
Proof.
  unfold enter_load. frame.
Qed.

Lemma keeps_load_node context description :
  keeps_future (load_node context description).
Proof.
  unfold load_node, run_in_executor. frame.
Qed.

Lemma future_inv_advance {A} f (m : M A) next l :
  keeps_future m -> future_inv f l -> future_inv f (advance m next l).
Proof.
  intros Hm Hl. specialize (Hm (this l)). unfold advance.
  destruct (m (this l)) as [[r self'] t]. cbn in Hm. destruct Hm as [Hf Ht].
  unfold future_inv in *. cbn [this trace].
  rewrite filter_app, Ht, app_nil_r, Hf. exact Hl.
Qed.

Lemma cancel_completed_future_spec self :
  cancel_completed_future self =
  (Ok tt, set_completed_future None self,
   match _completed_future self with
   | Some f => [LockAcquire; FutureCancel f; LockRelease]
   | None => [LockAcquire; LockRelease]
   end).
Proof.
  unfold cancel_completed_future. run_method.
  destruct self as [p n [f|] t c d e]; reflexivity.
Qed.

Lemma future_inv_cancel f next l :
  future_inv f l -> future_inv f (advance cancel_completed_future next l).
Proof.
  intro Hl. unfold advance. rewrite cancel_completed_future_spec.
  unfold future_inv in *. cbn [this trace set_completed_future
                               _completed_future].
  rewrite filter_app. right. split; [reflexivity|].
  destruct Hl as [[Hf Ht]|[Hf Ht]]; rewrite Hf; cbn; rewrite ?app_nil_r.
  - rewrite Ht. right. reflexivity.
  - exact Ht.
Qed.

(** What the shutdown handler does, by cases on the fields it tests. *)
Lemma on_shutdown_spec self :
  __on_shutdown self =
  (Ok None,
   match _completed_future self with
   | Some _ =>
     set_container None
       (set_completed_future None
          (set_executor {| _max_workers := _max_workers (_executor self);
                           _shutdown := true |} self))
   | None => self
   end,
   [LockAcquire]
   ++ match _started_task self with Some t => [TaskCancel t] | None => [] end
   ++ match _completed_future self with
      | Some f =>
        [ExecutorShutdown; FutureCancel f]
        ++ match _container self with
           | Some c => [ContainerStop c]
           | None => []
           end
      | None => []
      end
   ++ [LockRelease]).
Proof.
  unfold __on_shutdown, executor_shutdown, Task_cancel. run_method.
  destruct self as [p n [f|] [t|] [c|] d e]; reflexivity.
Qed.

Lemma future_inv_shutdown f l :
  future_inv f l -> future_inv f (shutdown_step l).
Proof.
  intro Hl. unfold shutdown_step. rewrite on_shutdown_spec.
  unfold future_inv in *. cbn [this trace].
  rewrite !filter_app.
  assert (Htask : filter is_future_cancel
                    match _started_task (this l) with
                    | Some t => [TaskCancel t]
                    | None => []
                    end = []) by (destruct (_started_task (this l)); reflexivity).
  rewrite Htask. cbn [filter is_future_cancel app].
  destruct Hl as [[Hf Ht]|[Hf Ht]]; rewrite Hf, ?Ht.
  - right. split; [reflexivity|]. right.
    destruct (_container (this l)); reflexivity.
  - right. split; [exact Hf|]. rewrite app_nil_r. exact Ht.
Qed.

Lemma future_inv_task_step context f l :
  future_inv f l -> future_inv f (task_step context l).
Proof.
  intro Hl. unfold task_step.
  destruct (pc l) as [ | | | | [|d rest] | r | ] eqn:E.
  - apply future_inv_advance; [apply keeps_try_pull | exact Hl].
  - apply future_inv_advance; [apply keeps_try_start | exact Hl].
  - apply future_inv_cancel; exact Hl.
  - apply future_inv_advance; [apply keeps_enter_load | exact Hl].
  - exact Hl.
  - apply future_inv_advance; [apply keeps_load_node | exact Hl].
  - exact Hl.
  - exact Hl.
Qed.

Lemma future_inv_schedule context f schedule l :
  future_inv f l -> future_inv f (run_schedule context schedule l).
Proof.
  revert l. induction schedule as [|a rest IH]; intros l Hl; cbn.
  - exact Hl.
  - apply IH. destruct a; cbn.
    + apply future_inv_task_step; exact Hl.
    + apply future_inv_shutdown; exact Hl.
Qed.

Lemma future_inv_launched context self :
  future_inv (create_future (asyncio_loop context)) (launched context self).
Proof. left. split; reflexivity. Qed.

Lemma cancellations_of_filter f t :
  cancellations f t = cancellations f (filter is_future_cancel t).
Proof.
  unfold cancellations. induction t as [|e t IH]; [reflexivity|].
  destruct e; cbn; try exact IH.
  destruct (f0 =? f)%N; cbn; rewrite IH; reflexivity.
Qed.

(** *** The task run without interruption is [_start_docker_nodes] *)

Lemma run_schedule_cons context a schedule l :
  run_schedule context (a :: schedule) l =
  run_schedule context schedule (lifecycle_step context a l).
Proof. reflexivity. Qed.

Lemma finished_stutters context n l r :
  pc l = Finished r -> run_schedule context (repeat TaskStep n) l = l.
Proof.
  intro H. induction n as [|n IH]; [reflexivity|].
  cbn [repeat]. rewrite run_schedule_cons. cbn [lifecycle_step].
  unfold task_step at 1. rewrite H. exact IH.
Qed.

Lemma loading_runs_loop context rest : forall self t0,
  run_schedule context (repeat TaskStep (S (List.length rest)))
    {| this := self; pc := Loading rest; trace := t0 |} =
  {| this := self_of (for_each rest (load_node context) self);
     pc := Finished (result_of (for_each rest (load_node context) self));
     trace := t0 ++ trace_of (for_each rest (load_node context) self) |}.
Proof.
  induction rest as [|d rest IH]; intros self t0.
  - cbn. rewrite app_nil_r. reflexivity.
  - cbn [List.length repeat]. rewrite run_schedule_cons.
    rewrite for_each_cons. cbn [lifecycle_step].
    unfold task_step, advance. cbn [pc this trace].
    destruct (load_node context d self) as [[[[]|e] self1] t1] eqn:E.
    + cbn [on_ok]. change (TaskStep :: repeat TaskStep (List.length rest))
        with (repeat TaskStep (S (List.length rest))).
      rewrite IH.
      destruct (for_each rest (load_node context) self1) as [[r self2] t2].
      cbn. rewrite app_assoc. reflexivity.
    + cbn [on_ok].
      change (TaskStep :: repeat TaskStep (List.length rest))
        with (repeat TaskStep (S (List.length rest))).
      erewrite finished_stutters by reflexivity. reflexivity.
Qed.

(** The pull block never fails and assigns no field. *)
Lemma try_pull_spec self :
  try_pull self =
  (Ok tt, self,
   [Log INFO (Format (py "Pulling image {}")
                     [AStr (image_name (_policy self))]);
    ImagesPull (repository (_policy self)) (tag (_policy self))]
   ++ match images_pull (_docker_client self) (repository (_policy self))
                        (tag (_policy self)) with
      | Done _ => []
      | NotFound msg =>
        [Log WARN
           (Format (py "Image " ++ dq ++ py "{}" ++ dq
                    ++ py " could not be pulled but may be found locally.")
                   [AStr (image_name (_policy self))]);
         Log DEBUG (OfExn (ImageNotFound msg))]
      end).
Proof.
  unfold try_pull, _pull_docker_image. run_method.
  destruct (images_pull _ _ _) as [[]|msg]; reflexivity.
Qed.

Lemma try_start_spec self :
  try_start self =
  if repeats_keyword (or_empty (run_args (_policy self)))
  then (Raise TypeError, self, [])
  else
  match containers_run (_docker_client self) (image_name (_policy self))
                       (container_name (_policy self))
                       (or_empty (run_args (_policy self))) with
  | Done c =>
    (Ok Next, set_container (Some c) self,
     [ContainersRun (image_name (_policy self)) (container_name (_policy self))
                    (or_empty (run_args (_policy self)));
      Log INFO (Format (py "Running Docker container: " ++ dq ++ py "{}" ++ dq)
                       [AStr (container_name (_policy self))])])
  | NotFound msg =>
    (Ok Return, self,
     [ContainersRun (image_name (_policy self)) (container_name (_policy self))
                    (or_empty (run_args (_policy self)));
      Log ERROR
        (Format (py "Image " ++ dq ++ py "{}" ++ dq
                 ++ py " could not be found; execution of container "
                 ++ dq ++ py "{}" ++ dq ++ py " failed.")
                [AStr (image_name (_policy self));
                 AStr (container_name (_policy self))]);
      Log DEBUG (OfExn (ImageNotFound msg))])
  end.
Proof.
  unfold try_start, _start_docker_container. run_method.
  destruct (repeats_keyword _); [reflexivity|].
  destruct (containers_run _ _ _ _) as [c|msg]; reflexivity.
Qed.

Lemma bind_ok {A B} (m : M A) (k : A -> M B) self a self' t
    (H : m self = (Ok a, self', t)) :
  bind m k self = let '(r, self'', t') := k a self' in (r, self'', t ++ t').
Proof. unfold bind. rewrite H. reflexivity. Qed.
Arguments bind_ok {A B} m k {self a self' t} H.

(** [_start_docker_nodes], cut at its statements. *)
Lemma start_docker_nodes_steps context self :
  _start_docker_nodes context self =
  (try_pull ;;
   fl <- try_start ;;
   match fl with
   | Return => cancel_completed_future
   | Next => _load_nodes_in_docker context
   end) self.
Proof.
  unfold _start_docker_nodes.
  change (try_except _pull_docker_image _) with try_pull.
  rewrite !(bind_ok _ _ (try_pull_spec self)).
  f_equal.
  unfold try_start, _start_docker_container. run_method.
  destruct (repeats_keyword _); [reflexivity|].
  destruct (containers_run _ _ _ _) as [c|msg]; cbn [answered].
  - reflexivity.
  - rewrite cancel_completed_future_spec. cbn.
    destruct (_completed_future self); reflexivity.
Qed.

Lemma load_nodes_with_container context self c :
  _container self = Some c ->
  _load_nodes_in_docker context self =
  for_each (_node_descriptions self) (load_node context) self.
Proof.
  intro H. unfold _load_nodes_in_docker. run_method. rewrite H.
  destruct (for_each _ _ self) as [[r s] t]. reflexivity.
Qed.

Lemma bind_raise {A B} (m : M A) (k : A -> M B) self e self' t
    (H : m self = (Raise e, self', t)) :
  bind m k self = (Raise e, self', t).
Proof. unfold bind. rewrite H. reflexivity. Qed.
Arguments bind_raise {A B} m k {self e self' t} H.

(** The cut of the task into steps loses nothing: run with no shutdown in
    between, the steps amount to one call of [_start_docker_nodes]. *)
Lemma task_alone_is_start_docker_nodes context self t0 :
  run_schedule context
    (repeat TaskStep (4 + List.length (_node_descriptions self)))
    {| this := self; pc := Pending; trace := t0 |} =
  {| this := self_of (_start_docker_nodes context self);
     pc := Finished (result_of (_start_docker_nodes context self));
     trace := t0 ++ trace_of (_start_docker_nodes context self) |}.
Proof.
  rewrite start_docker_nodes_steps.
  rewrite (bind_ok _ _ (try_pull_spec self)).
  change (4 + List.length (_node_descriptions self))
    with (S (S (S (S (List.length (_node_descriptions self)))))).
  cbn [repeat]. rewrite run_schedule_cons. cbn [lifecycle_step].
  unfold task_step, advance. cbn [pc this].
  rewrite try_pull_spec. cbn [on_ok trace].
  rewrite run_schedule_cons. cbn [lifecycle_step].
  unfold task_step, advance. cbn [pc this].
  pose proof (try_start_spec self) as Hs.
  destruct (repeats_keyword _).
  { rewrite (bind_raise _ _ Hs), Hs. cbn [on_ok trace].
    change (TaskStep :: TaskStep
              :: repeat TaskStep (List.length (_node_descriptions self)))
      with (repeat TaskStep (S (S (List.length (_node_descriptions self))))).
    erewrite finished_stutters by reflexivity.
    cbn [self_of result_of trace_of fst snd]. rewrite !app_nil_r.
    reflexivity. }
  destruct (containers_run _ _ _ _) as [c|msg];
    rewrite (bind_ok _ _ Hs), Hs; cbn [on_ok trace];
    rewrite run_schedule_cons; cbn [lifecycle_step];
    unfold task_step, advance; cbn [pc this].
  - unfold enter_load. run_method.
    cbn [set_container _container on_ok _node_descriptions].
    change (TaskStep :: repeat TaskStep (List.length (_node_descriptions self)))
      with (repeat TaskStep (S (List.length (_node_descriptions self)))).
    rewrite loading_runs_loop.
    rewrite (@load_nodes_with_container context _ c) by reflexivity.
    cbn [_node_descriptions set_container].
    destruct (for_each (_node_descriptions self) (load_node context)
                (set_container (Some c) self)) as [[r s2] t2].
    cbn. rewrite <- !app_assoc. reflexivity.
  - rewrite cancel_completed_future_spec.
    change (TaskStep :: repeat TaskStep (List.length (_node_descriptions self)))
      with (repeat TaskStep (S (List.length (_node_descriptions self)))).
    erewrite finished_stutters by reflexivity.
    cbn. rewrite <- !app_assoc. reflexivity.
Qed.

(** *** The node loop *)

Lemma containerized_cmd_spec entrypoint package executable :
  _containerized_cmd entrypoint package executable =
  match Shlex.split entrypoint with
  | Ok tokens => Ok (tokens ++ [py "ros2"; py "run"; package; executable])
  | Raise e => Raise e
  end.
Proof. reflexivity. Qed.

Lemma load_node_ok context description self c tokens :
  _container self = Some c ->
  _shutdown (_executor self) = false ->
  Shlex.split (entrypoint (_policy self)) = Ok tokens ->
  load_node context description self =
  (Ok tt, self,
   [ExecRun c (node_command context tokens description);
    RunInExecutor (exec_run (_docker_client self) c
                            (node_command context tokens description));
    Log DEBUG (Format (py "Running " ++ dq ++ py "{}" ++ dq
                       ++ py " in container: " ++ dq ++ py "{}" ++ dq)
                      [AList (node_command context tokens description);
                       AStr (container_name (_policy self))])]).
Proof.
  intros Hc Hs Ht. unfold load_node, run_in_executor, _containerized_cmd.
  run_method. rewrite Ht, Hc, Hs. reflexivity.
Qed.

Lemma load_loop_ok context self c tokens :
  _container self = Some c ->
  _shutdown (_executor self) = false ->
  Shlex.split (entrypoint (_policy self)) = Ok tokens ->
  forall nodes,
    result_of (for_each nodes (load_node context) self) = Ok tt /\
    self_of (for_each nodes (load_node context) self) = self /\
    exec_commands (trace_of (for_each nodes (load_node context) self)) =
      map (node_command context tokens) nodes /\
    log_workers (trace_of (for_each nodes (load_node context) self)) =
      map (fun d => exec_run (_docker_client self) c
                             (node_command context tokens d)) nodes.
Proof.
  intros Hc Hs Ht. induction nodes as [|d rest IH].
  - repeat split.
  - rewrite for_each_cons, (load_node_ok context d self Hc Hs Ht).
    destruct (for_each rest (load_node context) self) as [[r s2] t2].
    cbn in *. destruct IH as (-> & -> & -> & ->). repeat split.
Qed.

Lemma exec_commands_app t1 t2 :
  exec_commands (t1 ++ t2) = exec_commands t1 ++ exec_commands t2.
Proof. apply flat_map_app. Qed.

Lemma log_workers_app t1 t2 :
  log_workers (t1 ++ t2) = log_workers t1 ++ log_workers t2.
Proof. apply flat_map_app. Qed.

(** The run of [_start_docker_nodes] when the container starts. *)
Lemma start_docker_nodes_started context self c :
  repeats_keyword (or_empty (run_args (_policy self))) = false ->
  containers_run (_docker_client self) (image_name (_policy self))
                 (container_name (_policy self))
                 (or_empty (run_args (_policy self))) = Done c ->
  _start_docker_nodes context self =
  let '(r, self', t) :=
    _load_nodes_in_docker context (set_container (Some c) self) in
  (r, self',
   trace_of (try_pull self)
   ++ [ContainersRun (image_name (_policy self)) (container_name (_policy self))
                     (or_empty (run_args (_policy self)));
       Log INFO (Format (py "Running Docker container: " ++ dq ++ py "{}" ++ dq)
                        [AStr (container_name (_policy self))])]
   ++ t).
Proof.
  intros Hkw Hrun. rewrite start_docker_nodes_steps.
  rewrite (bind_ok _ _ (try_pull_spec self)).
  pose proof (try_start_spec self) as Hs. rewrite Hkw, Hrun in Hs.
  rewrite (bind_ok _ _ Hs), try_pull_spec.
  destruct (_load_nodes_in_docker context (set_container (Some c) self))
    as [[r s2] t2]. reflexivity.
Qed.


(** The run of [_start_docker_nodes] when the image is not found. *)
Lemma start_docker_nodes_not_found context self msg :
  repeats_keyword (or_empty (run_args (_policy self))) = false ->
  containers_run (_docker_client self) (image_name (_policy self))
                 (container_name (_policy self))
                 (or_empty (run_args (_policy self))) = NotFound msg ->
  _start_docker_nodes context self =
  (Ok tt, set_completed_future None self,
   trace_of (try_pull self)
   ++ [ContainersRun (image_name (_policy self)) (container_name (_policy self))
                     (or_empty (run_args (_policy self)));
       Log ERROR
         (Format (py "Image " ++ dq ++ py "{}" ++ dq
                  ++ py " could not be found; execution of container "
                  ++ dq ++ py "{}" ++ dq ++ py " failed.")
                 [AStr (image_name (_policy self));
                  AStr (container_name (_policy self))]);
       Log DEBUG (OfExn (ImageNotFound msg))]
   ++ [LockAcquire]
   ++ match _completed_future self with
      | Some f => [FutureCancel f]
      | None => []
      end
   ++ [LockRelease]).
Proof.
  intros Hkw Hrun. rewrite start_docker_nodes_steps.
  rewrite (bind_ok _ _ (try_pull_spec self)).
  pose proof (try_start_spec self) as Hs. rewrite Hkw, Hrun in Hs.
  rewrite (bind_ok _ _ Hs), try_pull_spec, cancel_completed_future_spec.
  destruct (_completed_future self); reflexivity.
Qed.

Lemma try_pull_quiet self :
  exec_commands (trace_of (try_pull self)) = [] /\
  log_workers (trace_of (try_pull self)) = [] /\
  filter is_future_cancel (trace_of (try_pull self)) = [].
Proof.
  rewrite try_pull_spec. cbn.
  destruct (images_pull _ _ _); repeat split.
Qed.

(* ================================================================= *)
(** ** The command each node is started with *)

(** C1.  When the pull and the start of the container both succeed (the
    call of [containers.run] is well formed and answers a container), the
    startup sequence issues one [exec_run] per configured node, in order, and
    the command of each is the shell tokenization of the policy's entrypoint
    followed by ["ros2"], ["run"], the resolved package name and the resolved
    executable name.  For the entrypoint ["bash -c"], package ["demo_pkg"] and
    executable ["talker"] the command is
    [["bash"; "-c"; "ros2"; "run"; "demo_pkg"; "talker"]]. *)
Theorem exec_command_of_every_node context self c tokens :
  images_pull (_docker_client self) (repository (_policy self))
              (tag (_policy self)) = Done tt ->
  repeats_keyword (or_empty (run_args (_policy self))) = false ->
  containers_run (_docker_client self) (image_name (_policy self))
                 (container_name (_policy self))
                 (or_empty (run_args (_policy self))) = Done c ->
  Shlex.split (entrypoint (_policy self)) = Ok tokens ->
  _shutdown (_executor self) = false ->
  result_of (_start_docker_nodes context self) = Ok tt /\
  exec_commands (trace_of (_start_docker_nodes context self)) =
    map (fun description =>
           tokens ++ [py "ros2"; py "run";
                      perform_substitutions context (package description);
                      perform_substitutions context
                        (node_executable description)])
        (_node_descriptions self) /\
  (forall package executable,
     _containerized_cmd (entrypoint (_policy self)) package executable =
     Ok (tokens ++ [py "ros2"; py "run"; package; executable])) /\
  _containerized_cmd (py "bash -c") (py "demo_pkg") (py "talker") =
    Ok [py "bash"; py "-c"; py "ros2"; py "run"; py "demo_pkg"; py "talker"].
Proof.
  intros _ Hkw Hrun Htok Hlive.
  rewrite (start_docker_nodes_started context self Hkw Hrun).
  rewrite (@load_nodes_with_container context _ c) by reflexivity.
  destruct (@load_loop_ok context (set_container (Some c) self) c tokens
              eq_refl Hlive Htok (_node_descriptions self))
    as (Hr & _ & Hc & _).
  cbn [_node_descriptions set_container] in *.
  destruct (for_each (_node_descriptions self) (load_node context)
              (set_container (Some c) self)) as [[r s2] t2].
  cbn in Hr, Hc. cbn [result_of trace_of fst snd].
  split; [exact Hr|]. split.
  - rewrite !exec_commands_app.
    destruct (try_pull_quiet self) as (-> & _). cbn. exact Hc.
  - split; [|reflexivity].
    intros package executable. rewrite containerized_cmd_spec, Htok.
    reflexivity.
Qed.

Lemma exec_command_of_every_node_witness :
  exec_commands
    (trace_of (_start_docker_nodes Sample.context
                 (Sample.action (Done tt) (Done 7%N)))) =
  [[py "bash"; py "-c"; py "ros2"; py "run"; py "demo_pkg"; py "talker"]].
Proof.
  pose proof (@exec_command_of_every_node Sample.context
                (Sample.action (Done tt) (Done 7%N)) 7%N [py "bash"; py "-c"]
                eq_refl eq_refl eq_refl eq_refl eq_refl) as (_ & H & _).
  exact H.
Defined.

(* ================================================================= *)
(** ** Loading nodes without a container *)

(** C9.  When [_load_nodes_in_docker] runs while no container is held, it
    logs exactly one error and returns: no [exec_run] is issued, no log
    worker is handed to the pool, and no field changes. *)
Theorem load_without_container_only_logs context self :
  _container self = None ->
  _load_nodes_in_docker context self =
  (Ok tt, self,
   [Log ERROR (Text no_active_container)]) /\
  logged ERROR (trace_of (_load_nodes_in_docker context self)) =
    [Text no_active_container] /\
  exec_commands (trace_of (_load_nodes_in_docker context self)) = [] /\
  log_workers (trace_of (_load_nodes_in_docker context self)) = [].
Proof.
  intro H. unfold _load_nodes_in_docker. run_method. rewrite H.
  repeat split.
Qed.

Lemma load_without_container_only_logs_witness :
  exec_commands
    (trace_of (_load_nodes_in_docker Sample.context
                 (Sample.action (Done tt) (Done 7%N)))) = [] /\
  log_workers
    (trace_of (_load_nodes_in_docker Sample.context
                 (Sample.action (Done tt) (Done 7%N)))) = [].
Proof.
  pose proof (@load_without_container_only_logs Sample.context
                (Sample.action (Done tt) (Done 7%N)) eq_refl) as (_ & _ & H1 & H2).
  split; [exact H1 | exact H2].
Defined.

(* ================================================================= *)
(** ** Construction *)

(** C10.  [LoadDockerNodes(policy, [])] raises while it builds the worker
    pool, whose size is the number of nodes; an instance that was
    constructed holds at least one node description. *)
Theorem constructed_action_has_a_node docker policy node_descriptions self :
  __init__ docker policy node_descriptions = Ok self ->
  __init__ docker policy [] =
    Raise (ValueError (py "max_workers must be greater than 0")) /\
  _node_descriptions self = node_descriptions /\
  1 <= List.length (_node_descriptions self) /\
  _max_workers (_executor self) =
    Z.of_nat (List.length (_node_descriptions self)).
Proof.
  unfold __init__, ThreadPoolExecutor_init. intro H.
  split; [reflexivity|].
  destruct (Z.leb_spec (Z.of_nat (List.length node_descriptions)) 0) as [Hle|Hgt];
    [discriminate|].
  inversion H; subst; cbn. repeat split. lia.
Qed.

Lemma constructed_action_has_a_node_witness :
  1 <= List.length
         (_node_descriptions (Sample.action (Done tt) (Done 7%N))).
Proof.
  pose proof (@constructed_action_has_a_node
                (Sample.docker (Done tt) (Done 7%N)) Sample.policy
                [Sample.talker] (Sample.action (Done tt) (Done 7%N))
                eq_refl) as (_ & _ & H & _).
  exact H.
Defined.

(* ================================================================= *)
(** ** Failure to pull the image *)

Lemma load_node_keeps_self context description self :
  self_of (load_node context description self) = self.
Proof.
  unfold load_node, run_in_executor. run_method.
  destruct (_containerized_cmd _ _ _); [|reflexivity].
  destruct (_container self); [|reflexivity].
  destruct (_shutdown (_executor self)); reflexivity.
Qed.

Lemma load_node_pull_answers context description a self :
  load_node context description (pull_answers a self) =
  (result_of (load_node context description self),
   pull_answers a self,
   trace_of (load_node context description self)).
Proof.
  destruct self as [p nd cf st [c|] dc [w sd]];
    unfold load_node, run_in_executor, pull_answers; run_method;
    cbn [_policy _container _executor _docker_client exec_run _shutdown];
    (destruct (_containerized_cmd _ _ _); [|reflexivity]);
    [destruct sd|]; reflexivity.
Qed.

Lemma load_loop_pull_answers context a nodes : forall self,
  for_each nodes (load_node context) (pull_answers a self) =
  (result_of (for_each nodes (load_node context) self),
   pull_answers a self,
   trace_of (for_each nodes (load_node context) self)) /\
  self_of (for_each nodes (load_node context) self) = self.
Proof.
  induction nodes as [|d rest IH]; intro self.
  - split; reflexivity.
  - rewrite !for_each_cons, load_node_pull_answers.
    pose proof (load_node_keeps_self context d self) as Hk.
    destruct (load_node context d self) as [[[[]|e] s1] t1];
      cbn in Hk; subst s1; cbn [result_of trace_of fst snd].
    + destruct (IH self) as [-> Hself].
      destruct (for_each rest (load_node context) self) as [[r s2] t2].
      cbn in *. subst. split; reflexivity.
    + split; reflexivity.
Qed.

Lemma load_nodes_pull_answers context a self :
  _load_nodes_in_docker context (pull_answers a self) =
  (result_of (_load_nodes_in_docker context self),
   pull_answers a (self_of (_load_nodes_in_docker context self)),
   trace_of (_load_nodes_in_docker context self)).
Proof.
  destruct (_container self) as [c|] eqn:Hc.
  - rewrite (@load_nodes_with_container context (pull_answers a self) c)
      by exact Hc.
    rewrite (@load_nodes_with_container context self c) by exact Hc.
    cbn [pull_answers _node_descriptions].
    destruct (load_loop_pull_answers context a (_node_descriptions self) self)
      as [-> ->]. reflexivity.
  - unfold _load_nodes_in_docker. run_method.
    cbn [pull_answers _container]. rewrite Hc. reflexivity.
Qed.

Lemma load_loop_no_warning context nodes : forall self,
  logged WARN (trace_of (for_each nodes (load_node context) self)) = [].
Proof.
  induction nodes as [|d rest IH]; intro self; [reflexivity|].
  rewrite for_each_cons.
  assert (Hd : logged WARN (trace_of (load_node context d self)) = []).
  { unfold load_node, run_in_executor. run_method.
    destruct (_containerized_cmd _ _ _); [|reflexivity].
    destruct (_container self); [|reflexivity].
    destruct (_shutdown (_executor self)); reflexivity. }
  destruct (load_node context d self) as [[[[]|e] s1] t1]; cbn in Hd |- *;
    [|exact Hd].
  specialize (IH s1).
  destruct (for_each rest (load_node context) s1) as [[r s2] t2].
  cbn in IH |- *. unfold logged in *. rewrite flat_map_app, Hd, IH.
  reflexivity.
Qed.

(** C5.  When [images.pull] raises [ImageNotFound] and [containers.run]
    succeeds (the call is well formed and answers a container), the
    sequence logs one warning, cancels no future, leaves
    [_completed_future] as it was, and from there on does what it does in
    front of a daemon that answers the pull: the same calls and log lines
    follow, with the same result and the same fields. *)
Theorem pull_failure_is_swallowed context self msg c :
  images_pull (_docker_client self) (repository (_policy self))
              (tag (_policy self)) = NotFound msg ->
  repeats_keyword (or_empty (run_args (_policy self))) = false ->
  containers_run (_docker_client self) (image_name (_policy self))
                 (container_name (_policy self))
                 (or_empty (run_args (_policy self))) = Done c ->
  exists rest,
    trace_of (_start_docker_nodes context self) =
      [Log INFO (Format (py "Pulling image {}")
                        [AStr (image_name (_policy self))]);
       ImagesPull (repository (_policy self)) (tag (_policy self));
       Log WARN
         (Format (py "Image " ++ dq ++ py "{}" ++ dq
                  ++ py " could not be pulled but may be found locally.")
                 [AStr (image_name (_policy self))]);
       Log DEBUG (OfExn (ImageNotFound msg))] ++ rest /\
    trace_of (_start_docker_nodes context (pull_answers (Done tt) self)) =
      [Log INFO (Format (py "Pulling image {}")
                        [AStr (image_name (_policy self))]);
       ImagesPull (repository (_policy self)) (tag (_policy self))] ++ rest /\
    logged WARN rest = [] /\
    filter is_future_cancel (trace_of (_start_docker_nodes context self)) = [] /\
    _completed_future (self_of (_start_docker_nodes context self)) =
      _completed_future self /\
    result_of (_start_docker_nodes context self) =
      result_of (_start_docker_nodes context (pull_answers (Done tt) self)) /\
    pull_answers (Done tt) (self_of (_start_docker_nodes context self)) =
      self_of (_start_docker_nodes context (pull_answers (Done tt) self)) /\
    result_of (_start_docker_nodes context self) =
      result_of (_load_nodes_in_docker context (set_container (Some c) self)).
Proof.
  intros Hpull Hkw Hrun.
  rewrite (start_docker_nodes_started context self Hkw Hrun).
  rewrite (@start_docker_nodes_started context (pull_answers (Done tt) self) c
             Hkw Hrun).
  rewrite !try_pull_spec, Hpull.
  change (set_container (Some c) (pull_answers (Done tt) self))
    with (pull_answers (Done tt) (set_container (Some c) self)).
  rewrite load_nodes_pull_answers.
  cbn [pull_answers _policy _docker_client images_pull].
  assert (Hk : keeps_future (_load_nodes_in_docker context)).
  { unfold _load_nodes_in_docker. frame. }
  specialize (Hk (set_container (Some c) self)).
  assert (Hw : logged WARN (trace_of (_load_nodes_in_docker context
                                        (set_container (Some c) self))) = []).
  { rewrite (@load_nodes_with_container context _ c) by reflexivity.
    apply load_loop_no_warning. }
  destruct (_load_nodes_in_docker context (set_container (Some c) self))
    as [[r s2] t2].
  cbn [result_of self_of trace_of fst snd] in *.
  destruct Hk as [Hfut Hcancel].
  eexists. split; [cbn; reflexivity|]. split; [cbn; reflexivity|].
  split; [exact Hw|].
  split; [cbn; exact Hcancel|].
  split; [exact Hfut|]. repeat split.
Qed.

Lemma pull_failure_is_swallowed_witness :
  filter is_future_cancel
    (trace_of (_start_docker_nodes Sample.context
                 (Sample.action (NotFound []) (Done 7%N)))) = [] /\
  exec_commands
    (trace_of (_start_docker_nodes Sample.context
                 (Sample.action (NotFound []) (Done 7%N)))) =
  [[py "bash"; py "-c"; py "ros2"; py "run"; py "demo_pkg"; py "talker"]].
Proof.
  destruct (@pull_failure_is_swallowed Sample.context
              (Sample.action (NotFound []) (Done 7%N)) [] 7%N
              eq_refl eq_refl eq_refl) as (rest & _ & _ & _ & H & _).
  split; [exact H | reflexivity].
Defined.

(* ================================================================= *)
(** ** The shutdown handler *)

Lemma on_shutdown_without_future self :
  _completed_future self = None ->
  __on_shutdown self =
  (Ok None, self,
   [LockAcquire]
   ++ match _started_task self with Some t => [TaskCancel t] | None => [] end
   ++ [LockRelease]).
Proof. intro H. rewrite on_shutdown_spec, H. reflexivity. Qed.

Lemma future_cleared_by_shutdown self :
  _completed_future (self_of (__on_shutdown self)) = None.
Proof.
  rewrite on_shutdown_spec. cbn.
  destruct (_completed_future self) eqn:E; [reflexivity | exact E].
Qed.

(** C2.  The handler is to stop the container it holds whenever it runs,
    as its docstring says, and it does not: the test of the container is
    nested inside the test of the future.  On the action [Sample.raced]
    reaches (shutdown between the pull and the start of the container) the
    future is gone, the container is there, and the handler neither stops
    it nor clears it, so the container stays up for good. *)
Lemma shutdown_leaves_container_once_future_is_cleared :
  _completed_future (this Sample.raced) = None /\
  _container (this Sample.raced) = Some 7%N /\
  _container (self_of (__on_shutdown (this Sample.raced))) = Some 7%N /\
  filter is_container_stop (trace_of (__on_shutdown (this Sample.raced))) = [] /\
  ~ stops_present_container (this Sample.raced).
Proof.
  repeat split; try reflexivity.
  intro H. destruct (H 7%N eq_refl) as [_ Hc]. discriminate Hc.
Qed.

(** What the handler does with a container it holds, by cases on the
    future: with the future set it stops the container and clears the
    reference, whether or not a startup task is referenced; with the
    future cleared it does neither. *)
Theorem shutdown_stops_container_while_future_is_set self c :
  _container self = Some c ->
  match _completed_future self with
  | Some _ =>
    filter is_container_stop (trace_of (__on_shutdown self)) =
      [ContainerStop c] /\
    In (ContainerStop c) (trace_of (__on_shutdown self)) /\
    _container (self_of (__on_shutdown self)) = None
  | None =>
    filter is_container_stop (trace_of (__on_shutdown self)) = [] /\
    _container (self_of (__on_shutdown self)) = Some c
  end.
Proof.
  intro Hc. rewrite on_shutdown_spec.
  destruct self as [p nd [f|] [t|] ct dc ex]; cbn in Hc; subst ct; cbn;
    repeat split; auto 10.
Qed.

Lemma shutdown_stops_container_while_future_is_set_witness :
  filter is_container_stop
    (trace_of (__on_shutdown
                 (set_container (Some 7%N)
                    (set_completed_future (Some 1%N)
                       (Sample.action (Done tt) (Done 7%N)))))) =
  [ContainerStop 7%N].
Proof.
  pose proof (@shutdown_stops_container_while_future_is_set
                (set_container (Some 7%N)
                   (set_completed_future (Some 1%N)
                      (Sample.action (Done tt) (Done 7%N)))) 7%N eq_refl) as H.
  cbn [_completed_future set_container set_completed_future] in H.
  destruct H as [H _]. exact H.
Defined.

Lemma future_stays_cleared context a l :
  _completed_future (this l) = None ->
  _completed_future (this (lifecycle_step context a l)) = None.
Proof.
  intro H.
  assert (Hadv : forall A (m : M A) next,
             keeps_future m ->
             _completed_future (this (advance m next l)) = None).
  { intros A m next Hm. specialize (Hm (this l)). unfold advance.
    destruct (m (this l)) as [[r s] t]. cbn in *. destruct Hm as [-> _].
    exact H. }
  destruct a; cbn [lifecycle_step].
  - unfold task_step.
    destruct (pc l) as [ | | | | [|d rest] | r | ]; auto.
    + apply Hadv, keeps_try_pull.
    + apply Hadv, keeps_try_start.
    + unfold advance. rewrite cancel_completed_future_spec. reflexivity.
    + apply Hadv, keeps_enter_load.
    + apply Hadv, keeps_load_node.
  - unfold shutdown_step.
    pose proof (future_cleared_by_shutdown (this l)) as Hs.
    destruct (__on_shutdown (this l)) as [[r s] t]. exact Hs.
Qed.

Lemma future_stays_cleared_schedule context schedule : forall l,
  _completed_future (this l) = None ->
  _completed_future (this (run_schedule context schedule l)) = None.
Proof.
  induction schedule as [|a rest IH]; intros l H; [exact H|].
  rewrite run_schedule_cons. apply IH, future_stays_cleared, H.
Qed.

Lemma run_schedule_app context before after l :
  run_schedule context (before ++ after) l =
  run_schedule context after (run_schedule context before l).
Proof. apply fold_left_app. Qed.

Lemma shutdown_step_clears_future l :
  _completed_future (this (shutdown_step l)) = None.
Proof.
  unfold shutdown_step.
  pose proof (future_cleared_by_shutdown (this l)) as Hs.
  destruct (__on_shutdown (this l)) as [[r s] t]. exact Hs.
Qed.

Lemma shutdown_step_without_future l :
  _completed_future (this l) = None -> this (shutdown_step l) = this l.
Proof.
  intro H. unfold shutdown_step.
  rewrite (@on_shutdown_without_future _ H). reflexivity.
Qed.

(** C7.  A second invocation of the shutdown handler changes nothing: the
    task reference, the completion future, the container reference and the
    worker pool are as the first invocation left them, and the second
    invocation shuts down no pool, cancels no future and stops no container.
    The same holds within a lifecycle when other steps run between the two
    invocations. *)
Theorem shutdown_twice_is_shutdown_once self :
  self_of (__on_shutdown (self_of (__on_shutdown self))) =
    self_of (__on_shutdown self) /\
  trace_of (__on_shutdown (self_of (__on_shutdown self))) =
    [LockAcquire]
    ++ match _started_task self with Some t => [TaskCancel t] | None => [] end
    ++ [LockRelease] /\
  forall context before between,
    let l := run_schedule context (before ++ Shutdown :: between)
                          (launched context self) in
    this (shutdown_step l) = this l.
Proof.
  split; [|split].
  - rewrite (@on_shutdown_without_future _ (future_cleared_by_shutdown self)).
    reflexivity.
  - rewrite (@on_shutdown_without_future _ (future_cleared_by_shutdown self)).
    rewrite on_shutdown_spec. cbn.
    destruct (_completed_future self); reflexivity.
  - intros context before between l. subst l.
    rewrite run_schedule_app, run_schedule_cons. cbn [lifecycle_step].
    apply shutdown_step_without_future, future_stays_cleared_schedule,
      shutdown_step_clears_future.
Qed.

(* ================================================================= *)
(** ** The completion future over a lifecycle *)

(** C8.  After [execute], along every interleaving of steps of the startup
    task and shutdown notifications, [cancel()] is called at most once on
    the future that [execute] created, no other future is cancelled, and
    once it has been cancelled the field no longer holds it. *)
Theorem completion_future_cancelled_at_most_once context self schedule :
  cancellations (create_future (asyncio_loop context))
    (trace (run_schedule context schedule (launched context self))) <= 1 /\
  (filter is_future_cancel
     (trace (run_schedule context schedule (launched context self))) = [] \/
   filter is_future_cancel
     (trace (run_schedule context schedule (launched context self))) =
   [FutureCancel (create_future (asyncio_loop context))]) /\
  (cancellations (create_future (asyncio_loop context))
     (trace (run_schedule context schedule (launched context self))) = 1 ->
   _completed_future
     (this (run_schedule context schedule (launched context self))) = None).
Proof.
  pose proof (future_inv_schedule context schedule
                (future_inv_launched context self)) as H.
  set (l := run_schedule context schedule (launched context self)) in *.
  set (f := create_future (asyncio_loop context)) in *.
  rewrite (cancellations_of_filter f (trace l)).
  assert (Hone : cancellations f [FutureCancel f] = 1).
  { unfold cancellations. cbn. rewrite N.eqb_refl. reflexivity. }
  destruct H as [[Hf Ht]|[Hf [Ht|Ht]]]; rewrite Ht.
  - split; [cbn; lia|]. split; [left; reflexivity|]. discriminate.
  - split; [cbn; lia|]. split; [left; reflexivity|]. discriminate.
  - rewrite Hone. split; [lia|]. split; [right; reflexivity|].
    intros _. exact Hf.
Qed.

Lemma completion_future_cancelled_at_most_once_witness :
  cancellations 1%N
    (trace (run_schedule Sample.context
              [TaskStep; TaskStep; Shutdown; TaskStep; Shutdown]
              (launched Sample.context
                 (Sample.action (Done tt) (NotFound []))))) = 1 /\
  _completed_future
    (this (run_schedule Sample.context
             [TaskStep; TaskStep; Shutdown; TaskStep; Shutdown]
             (launched Sample.context
                (Sample.action (Done tt) (NotFound []))))) = None.
Proof.
  destruct (completion_future_cancelled_at_most_once Sample.context
              (Sample.action (Done tt) (NotFound []))
              [TaskStep; TaskStep; Shutdown; TaskStep; Shutdown])
    as (_ & _ & H).
  split; [reflexivity | apply H; reflexivity].
Defined.

(* ================================================================= *)
(** ** The log pump *)

Lemma info_decoded_ok b text self :
  decode_utf8 b = Ok text ->
  info_decoded (PyBytes b) self = (Ok tt, self, [Log INFO (Text (strip text))]).
Proof.
  intro H. unfold info_decoded. run_method. cbn [decode]. rewrite H.
  reflexivity.
Qed.

Lemma handle_logs_cons log rest self :
  _handle_logs (log :: rest) self =
  match handle_log log self with
  | (Ok _, self', t) =>
    let '(r, self'', t') := _handle_logs rest self' in (r, self'', t ++ t')
  | (Raise e, self', t) => (Raise e, self', t)
  end.
Proof. apply for_each_cons. Qed.

(** A chunk that is not a generator never makes the pump fail: it is
    skipped, forwarded, or reported once with its type. *)
Lemma plain_chunk_is_recovered log self :
  isinstance_GeneratorType log = false ->
  handle_log log self =
  (Ok tt, self,
   if negb (truthy log) then []
   else match decode log with
        | Ok text => [Log INFO (Text (strip text))]
        | Raise _ =>
          [Log EXCEPTION (Format (py "Unable to print log of type {}")
                                 [AType (type log)])]
        end).
Proof.
  intro Hg. unfold handle_log.
  destruct (negb (truthy log)); [reflexivity|].
  destruct log as [ |b|s|z|items]; try discriminate Hg; try reflexivity.
  unfold info_decoded. run_method. cbn [decode]. unfold decode_utf8.
  destruct (utf8 _); reflexivity.
Qed.

Lemma plain_chunks_never_stop_the_pump stream : forall self,
  Forall (fun log => isinstance_GeneratorType log = false) stream ->
  result_of (_handle_logs stream self) = Ok tt /\
  self_of (_handle_logs stream self) = self.
Proof.
  induction stream as [|log rest IH]; intros self H.
  - split; reflexivity.
  - inversion H as [|? ? Hlog Hrest]; subst.
    rewrite handle_logs_cons, (plain_chunk_is_recovered log self Hlog).
    destruct (IH self Hrest) as [Hr Hs].
    destruct (_handle_logs rest self) as [[r s] t]. cbn in *.
    split; assumption.
Qed.

(** C3.  The claim holds for chunks met directly in the stream and fails
    for chunks inside a nested sequence, where the decoding is not guarded:
    on [Sample.broken_stream] the pump raises [UnicodeDecodeError] out of
    [_handle_logs] with no diagnostic logged and the chunk after the nested
    sequence is never processed, whereas the same bytes met as a plain
    chunk are reported once with their type and the next chunk is
    forwarded. *)
Theorem nested_decode_error_stops_the_pump self :
  _handle_logs Sample.broken_stream self = (Raise UnicodeDecodeError, self, []) /\
  ~ pump_survives Sample.broken_stream self /\
  _handle_logs [PyBytes [xff]; PyBytes [x6f; x6b]] self =
  (Ok tt, self,
   [Log EXCEPTION (Format (py "Unable to print log of type {}")
                          [AType bytes_t]);
    Log INFO (Text (py "ok"))]) /\
  _handle_logs [PyGenerator [PyNone]; PyBytes [x6f; x6b]] self =
    (Raise AttributeError, self, []).
Proof.
  repeat split. intro H. discriminate H.
Qed.

(** C6, amended.  A chunk that is empty or absent forwards nothing; a
    chunk that is a nested sequence of byte chunks that all decode forwards
    one line per inner element, each the trimmed UTF-8 decoding of that
    element; a plain byte chunk that decodes forwards exactly one line, its
    trimmed UTF-8 decoding.  In each case the pump goes on with the chunks
    that follow. *)
Theorem chunk_forwards_its_lines log lines self :
  forwards log lines ->
  handle_log log self =
    (Ok tt, self, map (fun line => Log INFO (Text line)) lines) /\
  forall rest,
    _handle_logs (log :: rest) self =
    (result_of (_handle_logs rest self),
     self_of (_handle_logs rest self),
     map (fun line => Log INFO (Text line)) lines
     ++ trace_of (_handle_logs rest self)).
Proof.
  intro H.
  assert (Hone : handle_log log self =
                 (Ok tt, self, map (fun line => Log INFO (Text line)) lines)).
  { destruct H as [log Hfalse | items lines Hall | b text Hne Hdec].
    - unfold handle_log. rewrite Hfalse. reflexivity.
    - unfold handle_log. cbn [truthy negb].
      induction Hall as [|item line items lines (b & text & -> & Hdec & ->) _ IH].
      + reflexivity.
      + rewrite for_each_cons, (info_decoded_ok b self Hdec), IH. reflexivity.
    - rewrite plain_chunk_is_recovered by reflexivity.
      destruct b as [|b0 b]; [contradiction|].
      cbn [truthy negb List.length Nat.eqb decode]. rewrite Hdec.
      reflexivity. }
  split; [exact Hone|].
  intro rest. rewrite handle_logs_cons, Hone.
  destruct (_handle_logs rest self) as [[r s] t]. reflexivity.
Qed.

(** The claim of C6 as the specification words it ("any other chunk
    forwards exactly one line") fails on a plain chunk that does not
    decode: bytes that are not UTF-8, or a value that is not bytes, forward
    no line and are reported by one diagnostic instead. *)
Lemma undecodable_chunk_forwards_no_line :
  handle_log (PyBytes [xff]) (Sample.action (Done tt) (Done 7%N)) =
    (Ok tt, Sample.action (Done tt) (Done 7%N),
     [Log EXCEPTION (Format (py "Unable to print log of type {}")
                            [AType bytes_t])]) /\
  info_lines
    (trace_of (handle_log (PyBytes [xff])
                 (Sample.action (Done tt) (Done 7%N)))) = [] /\
  info_lines
    (trace_of (handle_log (PyStr [97%N])
                 (Sample.action (Done tt) (Done 7%N)))) = [] /\
  ~ forwards_one_line (PyBytes [xff]) (Sample.action (Done tt) (Done 7%N)).
Proof.
  repeat split. intros [line H]. discriminate H.
Qed.

(** A generator of two chunks, the second holding a euro sign. *)
Lemma chunk_forwards_its_lines_witness :
  handle_log
    (PyGenerator [PyBytes [x68; x69; x0a]; PyBytes [xe2; x82; xac]])
    (Sample.action (Done tt) (Done 7%N)) =
  (Ok tt, Sample.action (Done tt) (Done 7%N),
   [Log INFO (Text (py "hi")); Log INFO (Text [8364%N])]).
Proof.
  refine (proj1 (@chunk_forwards_its_lines
                   (PyGenerator [PyBytes [x68; x69; x0a];
                                 PyBytes [xe2; x82; xac]])
                   [py "hi"; [8364%N]]
                   (Sample.action (Done tt) (Done 7%N)) _)).
  apply forwards_nested.
  repeat constructor.
  - exists [x68; x69; x0a], [104; 105; 10]%N. repeat split.
  - exists [xe2; x82; xac], [8364%N]. repeat split.
Defined.

(* ================================================================= *)
(** ** Entrypoints and the command *)

Lemma lex_is_eof_of_lexed s : forall lx,
  Shlex.lex s lx = Shlex.eof (lexed s lx).
Proof.
  induction s as [|c s IH]; intro lx; [reflexivity|]. cbn. apply IH.
Qed.

Lemma lexed_app s1 s2 lx : lexed (s1 ++ s2) lx = lexed s2 (lexed s1 lx).
Proof. apply fold_left_app. Qed.

Lemma start_is_calm : calm Shlex.start.
Proof. repeat split. left. split; reflexivity. Qed.

Lemma forallb_snoc {A} (f : A -> bool) xs x :
  forallb f (xs ++ [x]) = forallb f xs && f x.
Proof. rewrite forallb_app. cbn. rewrite andb_true_r. reflexivity. Qed.

Lemma shell_word_snoc tok c :
  Shlex.isin c Shlex.whitespace = false ->
  (tok = [] \/ shell_word tok = true) ->
  shell_word (tok ++ [c]) = true.
Proof.
  intros Hc Htok. unfold shell_word in *.
  rewrite forallb_snoc, Hc, length_app. cbn [List.length negb].
  replace (List.length tok + 1) with (S (List.length tok)) by lia.
  cbn [Nat.eqb negb andb]. rewrite andb_true_r.
  destruct Htok as [->|H]; [reflexivity|].
  apply andb_prop in H. destruct H as [_ ->]. reflexivity.
Qed.

Lemma step_keeps_calm c lx :
  Shlex.isin c Shlex.quotes = false ->
  Shlex.isin c Shlex.escape = false ->
  calm lx -> calm (Shlex.step c lx).
Proof.
  intros Hq He (Hquoted & Hout & Hstate).
  destruct lx as [st tok qd es out].
  cbn [Shlex.state Shlex.token Shlex.quoted Shlex.escapedstate Shlex.out] in *.
  subst qd.
  destruct Hstate as [[-> ->]|[-> Htok]]; unfold Shlex.step;
    cbn [Shlex.state Shlex.token Shlex.quoted Shlex.escapedstate Shlex.out];
    [ change (Shlex.space =? Shlex.space)%N with true
    | change (Shlex.word =? Shlex.space)%N with false;
      change (Shlex.isin Shlex.word Shlex.quotes) with false;
      change (Shlex.isin Shlex.word Shlex.escape) with false ];
    cbv iota; rewrite Hq, He;
    destruct (Shlex.isin c Shlex.whitespace) eqn:Hw.
  - unfold Shlex.has_token. cbn. repeat split; auto.
  - repeat split; cbn [Shlex.state Shlex.token Shlex.quoted Shlex.out]; auto.
    right. split; [reflexivity|].
    apply (@shell_word_snoc [] c Hw). left. reflexivity.
  - unfold Shlex.has_token. cbn [Shlex.token Shlex.quoted].
    assert (Hne : negb (Nat.eqb (List.length tok) 0) = true).
    { unfold shell_word in Htok. apply andb_prop in Htok. tauto. }
    rewrite Hne. cbn [orb]. unfold Shlex.emit.
    repeat split; cbn [Shlex.state Shlex.token Shlex.quoted Shlex.out].
    + rewrite forallb_snoc, Hout, Htok. reflexivity.
    + left. split; reflexivity.
  - repeat split; cbn [Shlex.state Shlex.token Shlex.quoted Shlex.out]; auto.
    right. split; [reflexivity|].
    apply shell_word_snoc; auto.
Qed.

Lemma lexed_keeps_calm s : forall lx,
  unquoted s = true -> calm lx -> calm (lexed s lx).
Proof.
  unfold unquoted.
  induction s as [|c s IH]; intros lx Hs Hlx; [exact Hlx|].
  cbn [forallb] in Hs. apply andb_prop in Hs. destruct Hs as [Hc Hs].
  apply andb_prop in Hc. destruct Hc as [Hq He].
  apply negb_true_iff in Hq, He.
  cbn. apply IH; [exact Hs|]. apply step_keeps_calm; assumption.
Qed.

Lemma calm_eof lx :
  calm lx ->
  exists tokens, Shlex.eof lx = Ok tokens /\ forallb shell_word tokens = true.
Proof.
  intros (Hquoted & Hout & Hstate). unfold Shlex.eof, Shlex.has_token.
  rewrite Hquoted.
  destruct Hstate as [[-> ->]|[-> Htok]]; cbn.
  - eexists. split; [reflexivity | exact Hout].
  - assert (Hne : negb (Nat.eqb (List.length (Shlex.token lx)) 0) = true).
    { unfold shell_word in Htok. apply andb_prop in Htok. tauto. }
    rewrite Hne. cbn [orb]. eexists. split; [reflexivity|].
    rewrite forallb_snoc, Hout, Htok. reflexivity.
Qed.

Lemma words_from_nonempty cur :
  cur <> [] -> words_from cur [] = [cur].
Proof. destruct cur; [contradiction | reflexivity]. Qed.

Lemma shell_word_nonempty tok : shell_word tok = true -> tok <> [].
Proof. intros H ->. discriminate H. Qed.

(** One character of an unquoted entrypoint moves the lexer as it moves
    the reading of words. *)
Lemma step_reads_a_word c rest lx :
  Shlex.isin c Shlex.quotes = false ->
  Shlex.isin c Shlex.escape = false ->
  calm lx ->
  Shlex.out (Shlex.step c lx)
  ++ words_from (Shlex.token (Shlex.step c lx)) rest =
  Shlex.out lx ++ words_from (Shlex.token lx) (c :: rest).
Proof.
  intros Hq He (Hquoted & Hout & Hstate).
  destruct lx as [st tok qd es out].
  cbn [Shlex.state Shlex.token Shlex.quoted Shlex.escapedstate Shlex.out] in *.
  subst qd.
  destruct Hstate as [[-> ->]|[-> Htok]]; unfold Shlex.step;
    cbn [Shlex.state Shlex.token Shlex.quoted Shlex.escapedstate Shlex.out];
    [ change (Shlex.space =? Shlex.space)%N with true
    | change (Shlex.word =? Shlex.space)%N with false;
      change (Shlex.isin Shlex.word Shlex.quotes) with false;
      change (Shlex.isin Shlex.word Shlex.escape) with false ];
    cbv iota; rewrite Hq, He; cbn [words_from];
    destruct (Shlex.isin c Shlex.whitespace) eqn:Hw.
  - reflexivity.
  - reflexivity.
  - unfold Shlex.has_token. cbn [Shlex.token Shlex.quoted].
    assert (Hne : negb (Nat.eqb (List.length tok) 0) = true).
    { unfold shell_word in Htok. apply andb_prop in Htok. tauto. }
    rewrite Hne. cbn [orb]. unfold Shlex.emit.
    cbn [Shlex.token Shlex.out].
    destruct tok as [|t0 tok]; [discriminate Htok|].
    rewrite <- app_assoc. reflexivity.
  - reflexivity.
Qed.

Lemma lex_reads_words s : forall lx,
  unquoted s = true -> calm lx ->
  Shlex.lex s lx = Ok (Shlex.out lx ++ words_from (Shlex.token lx) s).
Proof.
  unfold unquoted.
  induction s as [|c s IH]; intros lx Hs Hlx.
  - cbn [Shlex.lex]. destruct Hlx as (Hquoted & Hout & Hstate).
    unfold Shlex.eof, Shlex.has_token. rewrite Hquoted.
    destruct Hstate as [[-> ->]|[-> Htok]].
    + cbn. rewrite app_nil_r. reflexivity.
    + rewrite (@words_from_nonempty _ (@shell_word_nonempty _ Htok)).
      assert (Hne : negb (Nat.eqb (List.length (Shlex.token lx)) 0) = true).
      { unfold shell_word in Htok. apply andb_prop in Htok. tauto. }
      rewrite Hne. reflexivity.
  - cbn [forallb] in Hs. apply andb_prop in Hs. destruct Hs as [Hc Hs].
    apply andb_prop in Hc. destruct Hc as [Hq He].
    apply negb_true_iff in Hq, He.
    cbn [Shlex.lex].
    rewrite (IH _ Hs (@step_keeps_calm c lx Hq He Hlx)).
    rewrite (@step_reads_a_word c s lx Hq He Hlx). reflexivity.
Qed.

Lemma words_from_concat s : forall cur,
  List.concat (words_from cur s) =
  cur ++ filter (fun c => negb (Shlex.isin c Shlex.whitespace)) s.
Proof.
  induction s as [|c s IH]; intro cur.
  - destruct cur; cbn; rewrite ?app_nil_r; reflexivity.
  - cbn [words_from filter].
    destruct (Shlex.isin c Shlex.whitespace); cbn [negb].
    + destruct cur as [|c0 cur].
      * apply IH.
      * cbn [List.concat]. rewrite (IH []). reflexivity.
    + rewrite IH, <- app_assoc. reflexivity.
Qed.

(** X1.  An entrypoint with no quote and no backslash always yields a
    command: [shlex.split] does not raise and returns the white-space
    separated words of the entrypoint, so [_containerized_cmd] returns
    those words followed by ["ros2"], ["run"] and the package and
    executable names as they were given.  The words are non-empty, hold no
    white space, and together are the characters of the entrypoint that
    are not white space, in order. *)
Theorem unquoted_entrypoint_gives_a_command entrypoint package executable :
  unquoted entrypoint = true ->
  Shlex.split entrypoint = Ok (words entrypoint) /\
  _containerized_cmd entrypoint package executable =
    Ok (words entrypoint ++ [py "ros2"; py "run"; package; executable]) /\
  forallb shell_word (words entrypoint) = true /\
  List.concat (words entrypoint) =
    filter (fun c => negb (Shlex.isin c Shlex.whitespace)) entrypoint.
Proof.
  intro H.
  assert (Hsplit : Shlex.split entrypoint = Ok (words entrypoint))
    by exact (lex_reads_words entrypoint H start_is_calm).
  split; [exact Hsplit|]. split; [|split].
  - unfold _containerized_cmd. rewrite Hsplit. reflexivity.
  - destruct (calm_eof (lexed_keeps_calm entrypoint H start_is_calm))
      as (tokens & Heof & Hwords).
    unfold Shlex.split in Hsplit.
    rewrite lex_is_eof_of_lexed, Heof in Hsplit.
    inversion Hsplit; subst. exact Hwords.
  - apply (words_from_concat entrypoint []).
Qed.

Lemma unquoted_entrypoint_gives_a_command_witness :
  _containerized_cmd (py "/ros_entrypoint.sh  env") (py "demo pkg")
                     (py "talker") =
  Ok [py "/ros_entrypoint.sh"; py "env"; py "ros2"; py "run";
      py "demo pkg"; py "talker"].
Proof.
  exact (proj1 (proj2 (@unquoted_entrypoint_gives_a_command
                         (py "/ros_entrypoint.sh  env") (py "demo pkg")
                         (py "talker") eq_refl))).
Defined.

Lemma lexed_blank s :
  blank s = true -> lexed s Shlex.start = Shlex.start.
Proof.
  unfold blank. induction s as [|c s IH]; intro H; [reflexivity|].
  cbn [forallb] in H. apply andb_prop in H. destruct H as [Hc Hs].
  cbn [lexed fold_left].
  replace (Shlex.step c Shlex.start) with Shlex.start; [exact (IH Hs)|].
  unfold Shlex.step. cbn [Shlex.state Shlex.start N.eqb Shlex.space Pos.eqb].
  rewrite Hc. reflexivity.
Qed.

(** X2.  An entrypoint that is empty or holds white space only adds no
    token: the command is exactly ["ros2"; "run"; package; executable]. *)
Theorem blank_entrypoint_adds_nothing entrypoint package executable :
  blank entrypoint = true ->
  _containerized_cmd entrypoint package executable =
    Ok [py "ros2"; py "run"; package; executable].
Proof.
  intro H. unfold _containerized_cmd, Shlex.split.
  rewrite lex_is_eof_of_lexed, (lexed_blank entrypoint H). reflexivity.
Qed.

Lemma blank_entrypoint_adds_nothing_witness :
  _containerized_cmd [32; 9; 10; 13; 32]%N (py "demo_pkg") (py "talker") =
    Ok [py "ros2"; py "run"; py "demo_pkg"; py "talker"].
Proof.
  apply (@blank_entrypoint_adds_nothing [32; 9; 10; 13; 32]%N).
  reflexivity.
Defined.

Lemma calm_state lx :
  calm lx -> Shlex.state lx = Shlex.space \/ Shlex.state lx = Shlex.word.
Proof. intros (_ & _ & [[H _]|[H _]]); auto. Qed.

Lemma step_keeps_quotation q c lx :
  Shlex.isin q Shlex.quotes = true ->
  (c =? q)%N = false ->
  Shlex.isin c Shlex.escape = false ->
  Shlex.state lx = q ->
  Shlex.state (Shlex.step c lx) = q.
Proof.
  intros Hq Hc He Hst. unfold Shlex.step. rewrite Hst, Hq, Hc, He.
  assert (Hs : (q =? Shlex.space)%N = false).
  { unfold Shlex.isin, Shlex.quotes in Hq. cbn in Hq.
    apply orb_true_iff in Hq. destruct Hq as [H|H];
      [|apply orb_true_iff in H; destruct H as [H|H]; [|discriminate]];
      apply N.eqb_eq in H; subst q; reflexivity. }
  rewrite Hs. reflexivity.
Qed.

Lemma lexed_keeps_quotation q u : forall lx,
  Shlex.isin q Shlex.quotes = true ->
  forallb (fun c => negb (c =? q)%N && negb (Shlex.isin c Shlex.escape)) u
    = true ->
  Shlex.state lx = q ->
  Shlex.state (lexed u lx) = q.
Proof.
  induction u as [|c u IH]; intros lx Hq Hu Hst; [exact Hst|].
  cbn [forallb] in Hu. apply andb_prop in Hu. destruct Hu as [Hc Hu].
  apply andb_prop in Hc. destruct Hc as [Hc He].
  apply negb_true_iff in Hc, He.
  cbn [lexed fold_left]. apply IH; [exact Hq | exact Hu |].
  apply step_keeps_quotation; assumption.
Qed.

Lemma calm_step_opens c lx :
  calm lx ->
  Shlex.isin c Shlex.quotes = true \/ Shlex.isin c Shlex.escape = true ->
  Shlex.state (Shlex.step c lx) = c.
Proof.
  intros Hcalm Hc.
  assert (Hw : Shlex.isin c Shlex.whitespace = false).
  { unfold Shlex.isin, Shlex.quotes, Shlex.escape, Shlex.whitespace in *.
    cbn in *.
    destruct Hc as [H|H]; repeat (apply orb_true_iff in H; destruct H as [H|H]);
      try discriminate; apply N.eqb_eq in H; subst c; reflexivity. }
  unfold Shlex.step.
  destruct (calm_state Hcalm) as [->| ->].
  - change (Shlex.space =? Shlex.space)%N with true. cbv iota. rewrite Hw.
    destruct (Shlex.isin c Shlex.escape); [reflexivity|].
    destruct Hc as [->|H]; [reflexivity | discriminate].
  - change (Shlex.word =? Shlex.space)%N with false.
    change (Shlex.isin Shlex.word Shlex.quotes) with false.
    change (Shlex.isin Shlex.word Shlex.escape) with false.
    cbv iota. rewrite Hw.
    destruct (Shlex.isin c Shlex.quotes); [reflexivity|].
    destruct Hc as [H| ->]; [discriminate | reflexivity].
Qed.

Lemma split_unterminated entrypoint msg :
  unterminated entrypoint msg ->
  Shlex.split entrypoint = Raise (ValueError msg).
Proof.
  intros [s Hs | s q u Hs Hq Hu]; unfold Shlex.split;
    rewrite lex_is_eof_of_lexed, lexed_app;
    pose proof (lexed_keeps_calm s Hs start_is_calm) as Hcalm.
  - cbn [lexed fold_left Shlex.escape].
    unfold Shlex.eof.
    rewrite (@calm_step_opens 92%N _ Hcalm) by (right; reflexivity).
    reflexivity.
  - cbn [lexed fold_left]. fold (lexed u (Shlex.step q (lexed s Shlex.start))).
    unfold Shlex.eof.
    rewrite (@lexed_keeps_quotation q u _ Hq Hu)
      by (apply calm_step_opens; [exact Hcalm | left; exact Hq]).
    rewrite Hq.
    unfold Shlex.isin, Shlex.quotes in Hq. cbn in Hq.
    apply orb_true_iff in Hq. destruct Hq as [H|H];
      [|apply orb_true_iff in H; destruct H as [H|H]; [|discriminate]];
      apply N.eqb_eq in H; subst q; reflexivity.
Qed.



Lemma split_raises_only_value_error s e :
  Shlex.split s = Raise e -> exists msg, e = ValueError msg.
Proof.
  unfold Shlex.split. rewrite lex_is_eof_of_lexed. unfold Shlex.eof.
  destruct (_ || _); [discriminate|].
  destruct (Shlex.isin _ _); intro H; inversion H; eexists; reflexivity.
Qed.

(* ================================================================= *)
(** ** The node launch, when it does not go through *)

Lemma load_node_cases context description self :
  self_of (load_node context description self) = self /\
  filter is_future_cancel (trace_of (load_node context description self)) = [] /\
  filter is_container_stop (trace_of (load_node context description self)) = [] /\
  count is_pull (trace_of (load_node context description self)) = 0 /\
  count is_run (trace_of (load_node context description self)) = 0 /\
  match result_of (load_node context description self) with
  | Ok _ =>
    count is_exec (trace_of (load_node context description self)) = 1 /\
    count is_worker (trace_of (load_node context description self)) = 1 /\
    _shutdown (_executor self) = false
  | Raise e =>
    launch_error e = true /\
    count is_exec (trace_of (load_node context description self)) <= 1 /\
    count is_worker (trace_of (load_node context description self)) = 0
  end.
Proof.
  unfold load_node, run_in_executor, _containerized_cmd. run_method.
  destruct (Shlex.split (entrypoint (_policy self))) as [tokens|e] eqn:Hs.
  - destruct (_container self); [|cbn; repeat split; auto].
    destruct (_shutdown (_executor self)); cbn; repeat split; auto.
  - destruct (split_raises_only_value_error _ Hs) as [msg ->].
    cbn. repeat split; auto.
Qed.


Lemma load_loop_keeps_self context nodes : forall self,
  self_of (for_each nodes (load_node context) self) = self.
Proof.
  intro self.
  exact (proj2 (load_loop_pull_answers context (Done tt) nodes self)).
Qed.

Lemma count_app p t1 t2 : count p (t1 ++ t2) = count p t1 + count p t2.
Proof. unfold count. rewrite filter_app, length_app. reflexivity. Qed.

Lemma try_pull_counts self :
  count is_pull (trace_of (try_pull self)) = 1 /\
  count is_run (trace_of (try_pull self)) = 0 /\
  count is_exec (trace_of (try_pull self)) = 0 /\
  count is_worker (trace_of (try_pull self)) = 0 /\
  count is_container_stop (trace_of (try_pull self)) = 0.
Proof.
  rewrite try_pull_spec. cbn [trace_of snd].
  destruct (images_pull _ _ _); repeat split.
Qed.




(* ================================================================= *)
(** ** Failure to start the container *)




(** X4.  When the container starts (the call of [containers.run] is well
    formed and answers a container), the action holds it after the startup
    sequence and no other field has changed, whether the node launch went
    through or raised: a launch that fails leaves the container running,
    the completion future pending and nothing cancelled or stopped. *)
Theorem started_container_is_kept context self c :
  repeats_keyword (or_empty (run_args (_policy self))) = false ->
  containers_run (_docker_client self) (image_name (_policy self))
                 (container_name (_policy self))
                 (or_empty (run_args (_policy self))) = Done c ->
  self_of (_start_docker_nodes context self) = set_container (Some c) self /\
  filter is_future_cancel (trace_of (_start_docker_nodes context self)) = [] /\
  filter is_container_stop (trace_of (_start_docker_nodes context self)) = [].
Proof.
  intros Hkw Hrun.
  rewrite (start_docker_nodes_started context self Hkw Hrun).
  rewrite (@load_nodes_with_container context _ c) by reflexivity.
  pose proof (load_loop_keeps_self context
                (_node_descriptions (set_container (Some c) self))
                (set_container (Some c) self)) as Hself.
  assert (Hq : forall p, (forall d s, filter p (trace_of (load_node context d s)) = []) ->
               forall nodes s,
                 filter p (trace_of (for_each nodes (load_node context) s)) = []).
  { intros p Hp nodes. induction nodes as [|d rest IH]; intro s; [reflexivity|].
    rewrite for_each_cons. specialize (Hp d s).
    pose proof (load_node_keeps_self context d s) as Hk.
    destruct (load_node context d s) as [[[[]|e] s1] t1]; cbn in Hp, Hk |- *;
      [|exact Hp].
    specialize (IH s1).
    destruct (for_each rest (load_node context) s1) as [[r s2] t2].
    cbn in IH |- *. rewrite filter_app, Hp, IH. reflexivity. }
  pose proof (Hq is_future_cancel
                (fun d s => proj1 (proj2 (load_node_cases context d s)))
                (_node_descriptions (set_container (Some c) self))
                (set_container (Some c) self)) as Hc.
  pose proof (Hq is_container_stop
                (fun d s => proj1 (proj2 (proj2 (load_node_cases context d s))))
                (_node_descriptions (set_container (Some c) self))
                (set_container (Some c) self)) as Hs.
  destruct (for_each _ _ (set_container (Some c) self)) as [[r s2] t2].
  cbn [result_of self_of trace_of fst snd] in *.
  rewrite try_pull_spec. cbn [trace_of snd].
  split; [exact Hself|].
  rewrite !filter_app, Hc, Hs.
  destruct (images_pull _ _ _); split; reflexivity.
Qed.

Lemma started_container_is_kept_witness :
  _container
    (self_of (_start_docker_nodes Sample.context
                (Sample.action (NotFound []) (Done 7%N)))) = Some 7%N.
Proof.
  destruct (@started_container_is_kept Sample.context
              (Sample.action (NotFound []) (Done 7%N)) 7%N eq_refl eq_refl)
    as (H & _).
  rewrite H. reflexivity.
Defined.


(** X6.  When the container starts (the call is well formed and answers a
    container) but the entrypoint does not tokenize,
    the startup sequence raises the [ValueError] at the first node: no
    [exec_run] is issued and no log worker is created. *)
Theorem bad_entrypoint_aborts_before_any_exec context self c msg d rest :
  repeats_keyword (or_empty (run_args (_policy self))) = false ->
  containers_run (_docker_client self) (image_name (_policy self))
                 (container_name (_policy self))
                 (or_empty (run_args (_policy self))) = Done c ->
  unterminated (entrypoint (_policy self)) msg ->
  _node_descriptions self = d :: rest ->
  result_of (_start_docker_nodes context self) = Raise (ValueError msg) /\
  exec_commands (trace_of (_start_docker_nodes context self)) = [] /\
  log_workers (trace_of (_start_docker_nodes context self)) = [].
Proof.
  intros Hkw Hrun Hbad Hnodes.
  rewrite (start_docker_nodes_started context self Hkw Hrun).
  rewrite (@load_nodes_with_container context _ c) by reflexivity.
  cbn [_node_descriptions set_container]. rewrite Hnodes, for_each_cons.
  unfold load_node, _containerized_cmd. run_method.
  cbn [_policy set_container].
  rewrite (split_unterminated Hbad).
  cbn [result_of trace_of fst snd].
  destruct (try_pull_quiet self) as (He & Hw & _). unfold trace_of in He, Hw.
  rewrite exec_commands_app, log_workers_app, He, Hw.
  repeat split.
Qed.

Lemma bad_entrypoint_aborts_before_any_exec_witness :
  exists self,
    result_of (_start_docker_nodes Sample.context self) =
      Raise (ValueError (py "No escaped character")) /\
    exec_commands (trace_of (_start_docker_nodes Sample.context self)) = [].
Proof.
  pose (a := {| _policy :=
                  {| image_name := py "img"; repository := py "img";
                     tag := py "latest"; container_name := py "sbx1";
                     entrypoint := py "bash" ++ [92%N]; run_args := None |};
                _node_descriptions := [Sample.talker];
                _completed_future := Some 1%N;
                _started_task := Some 2%N;
                _container := None;
                _docker_client := Sample.docker (Done tt) (Done 7%N);
                _executor := {| _max_workers := 1; _shutdown := false |} |}).
  exists a.
  pose proof (@bad_entrypoint_aborts_before_any_exec Sample.context a
                7%N (py "No escaped character") Sample.talker []
                eq_refl eq_refl (@lone_backslash (py "bash") eq_refl) eq_refl)
    as H.
  exact (conj (proj1 H) (proj1 (proj2 H))).
Defined.

Lemma load_with_shut_pool context self c tokens d rest :
  _container self = Some c ->
  _shutdown (_executor self) = true ->
  Shlex.split (entrypoint (_policy self)) = Ok tokens ->
  _node_descriptions self = d :: rest ->
  _load_nodes_in_docker context self =
  (Raise (RuntimeError (py "cannot schedule new futures after shutdown")),
   self,
   [ExecRun c (node_command context tokens d)]).
Proof.
  intros Hc Hs Ht Hn.
  rewrite (@load_nodes_with_container context self c Hc), Hn, for_each_cons.
  unfold load_node, run_in_executor, _containerized_cmd. run_method.
  rewrite Ht, Hc, Hs. reflexivity.
Qed.

(** X7.  When the worker pool has been shut down, loading the nodes starts
    the first node's process in the container and then fails: the
    [exec_run] of the first node is issued, the pool refuses its log
    stream with [RuntimeError], no log worker is created and the remaining
    nodes are not started. *)
Theorem shut_pool_refuses_the_first_log_stream
    context self c tokens d rest :
  _container self = Some c ->
  _shutdown (_executor self) = true ->
  Shlex.split (entrypoint (_policy self)) = Ok tokens ->
  _node_descriptions self = d :: rest ->
  _load_nodes_in_docker context self =
  (Raise (RuntimeError (py "cannot schedule new futures after shutdown")),
   self,
   [ExecRun c (node_command context tokens d)]).
Proof. apply load_with_shut_pool. Qed.

Lemma shut_pool_refuses_the_first_log_stream_witness :
  exec_commands
    (trace_of
       (_load_nodes_in_docker Sample.context
          (set_executor {| _max_workers := 1; _shutdown := true |}
             (set_container (Some 7%N)
                (Sample.action (Done tt) (Done 7%N)))))) =
  [[py "bash"; py "-c"; py "ros2"; py "run"; py "demo_pkg"; py "talker"]].
Proof.
  rewrite (@shut_pool_refuses_the_first_log_stream Sample.context
             (set_executor {| _max_workers := 1; _shutdown := true |}
                (set_container (Some 7%N)
                   (Sample.action (Done tt) (Done 7%N))))
             7%N [py "bash"; py "-c"] Sample.talker []
             eq_refl eq_refl eq_refl eq_refl).
  reflexivity.
Defined.

(** X8.  When the launch goes through (the call of [containers.run] is
    well formed), the output stream of every
    [exec_run] is handed to the pool: there is one log worker per node, in
    the order of the nodes, and the worker of a node reads the stream of
    that node's command. *)
Theorem every_exec_stream_gets_a_worker context self c tokens :
  repeats_keyword (or_empty (run_args (_policy self))) = false ->
  containers_run (_docker_client self) (image_name (_policy self))
                 (container_name (_policy self))
                 (or_empty (run_args (_policy self))) = Done c ->
  Shlex.split (entrypoint (_policy self)) = Ok tokens ->
  _shutdown (_executor self) = false ->
  log_workers (trace_of (_start_docker_nodes context self)) =
    map (exec_run (_docker_client self) c)
        (exec_commands (trace_of (_start_docker_nodes context self))) /\
  List.length (log_workers (trace_of (_start_docker_nodes context self))) =
    List.length (_node_descriptions self).
Proof.
  intros Hkw Hrun Htok Hlive.
  rewrite (start_docker_nodes_started context self Hkw Hrun).
  rewrite (@load_nodes_with_container context _ c) by reflexivity.
  destruct (@load_loop_ok context (set_container (Some c) self) c tokens
              eq_refl Hlive Htok (_node_descriptions self))
    as (_ & _ & He & Hw).
  cbn [_node_descriptions set_container _docker_client] in *.
  destruct (for_each (_node_descriptions self) (load_node context)
              (set_container (Some c) self)) as [[r s2] t2].
  cbn [trace_of snd] in *.
  destruct (try_pull_quiet self) as (Hpe & Hpw & _).
  rewrite !exec_commands_app, !log_workers_app, Hpe, Hpw. cbn [app].
  change (exec_commands
            [ContainersRun (image_name (_policy self))
               (container_name (_policy self))
               (or_empty (run_args (_policy self)));
             Log INFO
               (Format (py "Running Docker container: " ++ dq ++ py "{}" ++ dq)
                  [AStr (container_name (_policy self))])]) with (@nil (list str)).
  change (log_workers
            [ContainersRun (image_name (_policy self))
               (container_name (_policy self))
               (or_empty (run_args (_policy self)));
             Log INFO
               (Format (py "Running Docker container: " ++ dq ++ py "{}" ++ dq)
                  [AStr (container_name (_policy self))])])
    with (@nil (list pyval)).
  cbn [app]. rewrite Hw, He, map_map, length_map. split; reflexivity.
Qed.

Lemma every_exec_stream_gets_a_worker_witness :
  List.length
    (log_workers
       (trace_of (_start_docker_nodes Sample.context
                    (Sample.action (Done tt) (Done 7%N))))) = 1.
Proof.
  exact (proj2 (@every_exec_stream_gets_a_worker Sample.context
                  (Sample.action (Done tt) (Done 7%N)) 7%N
                  [py "bash"; py "-c"] eq_refl eq_refl eq_refl eq_refl)).
Defined.

(* ================================================================= *)
(** ** More on the log pump *)

Lemma lstrip_head s :
  lstrip s = [] \/ exists c r, lstrip s = c :: r /\ isspace c = false.
Proof.
  induction s as [|c s IH]; [left; reflexivity|].
  cbn [lstrip]. destruct (isspace c) eqn:E; [exact IH|].
  right. exists c, s. split; [reflexivity | exact E].
Qed.

Lemma lstrip_suffix s : exists pre, s = pre ++ lstrip s.
Proof.
  induction s as [|c s (pre & IH)]; [exists []; reflexivity|].
  cbn [lstrip]. destruct (isspace c).
  - exists (c :: pre). cbn. rewrite <- IH. reflexivity.
  - exists []. reflexivity.
Qed.

Lemma strip_is_trimmed s : trimmed (strip s) = true.
Proof.
  unfold strip, rstrip.
  destruct (lstrip_head (rev (lstrip s))) as [->|(c & r & Hb & Hc)];
    [reflexivity|].
  rewrite Hb. cbn [rev].
  destruct (lstrip_suffix (rev (lstrip s))) as (pre & Hpre).
  rewrite Hb in Hpre. apply (f_equal (@rev N)) in Hpre.
  rewrite rev_involutive, rev_app_distr in Hpre. cbn [rev] in Hpre.
  destruct (rev r ++ [c]) as [|h t] eqn:Hline.
  - destruct (rev r); discriminate Hline.
  - unfold trimmed. rewrite <- Hline at 1. rewrite last_last, Hc.
    destruct (lstrip_head s) as [Hnil|(h' & t' & Ha & Hh)].
    + rewrite Hnil in Hpre. discriminate Hpre.
    + rewrite Ha in Hpre. cbn in Hpre. inversion Hpre; subst.
      rewrite Hh. reflexivity.
Qed.

Lemma info_decoded_cases v self :
  (exists text,
      decode v = Ok text /\
      info_decoded v self = (Ok tt, self, [Log INFO (Text (strip text))])) \/
  (exists e,
      decode v = Raise e /\ (e = UnicodeDecodeError \/ e = AttributeError) /\
      info_decoded v self = (Raise e, self, [])).
Proof.
  unfold info_decoded. run_method.
  destruct v as [ |b|s|z|items]; cbn [decode];
    try (right; exists AttributeError; repeat split; auto; fail).
  unfold decode_utf8. destruct (utf8 _) as [text|].
  - left. exists text. split; reflexivity.
  - right. exists UnicodeDecodeError. repeat split; auto.
Qed.

(** What one chunk can do to the pump, whatever the chunk. *)
Lemma handle_log_cases log self :
  self_of (handle_log log self) = self /\
  filter (fun e => negb (is_log e)) (trace_of (handle_log log self)) = [] /\
  forallb trimmed (info_lines (trace_of (handle_log log self))) = true /\
  forall e, result_of (handle_log log self) = Raise e ->
            (e = UnicodeDecodeError \/ e = AttributeError) /\
            isinstance_GeneratorType log = true.
Proof.
  destruct (isinstance_GeneratorType log) eqn:Hg.
  - destruct log as [ | | | |items]; try discriminate Hg.
    clear Hg. unfold handle_log. cbn [truthy negb isinstance_GeneratorType].
    induction items as [|v items IH].
    + repeat split; try reflexivity; discriminate.
    + rewrite for_each_cons.
      destruct (info_decoded_cases v self)
        as [(text & _ & ->)|(e & _ & He & ->)].
      * destruct (for_each items info_decoded self) as [[r s2] t2].
        cbn [result_of self_of trace_of fst snd] in IH |- *.
        destruct IH as (-> & Hl & Ht & Hr).
        cbn [app filter is_log negb info_lines flat_map forallb].
        fold (info_lines t2).
        rewrite strip_is_trimmed, Hl, Ht. repeat split; auto;
          apply (Hr _ H).
      * cbn. repeat split; auto; inversion H; subst; auto.
  - rewrite (plain_chunk_is_recovered log self Hg). cbn.
    repeat split; try discriminate.
    + destruct (negb (truthy log)); [reflexivity|].
      destruct (decode log); reflexivity.
    + destruct (negb (truthy log)); [reflexivity|].
      destruct (decode log); cbn; rewrite ?strip_is_trimmed; reflexivity.
Qed.

(** X9.  Whatever the stream, the pump assigns no field of the action and
    calls nothing but the logger; every line it forwards has no white space
    at either end; and the only errors it can raise are
    [UnicodeDecodeError] and [AttributeError]. *)
Theorem pump_only_logs_trimmed_lines stream self :
  self_of (_handle_logs stream self) = self /\
  filter (fun e => negb (is_log e)) (trace_of (_handle_logs stream self)) = [] /\
  forallb trimmed (info_lines (trace_of (_handle_logs stream self))) = true /\
  forall e, result_of (_handle_logs stream self) = Raise e ->
            e = UnicodeDecodeError \/ e = AttributeError.
Proof.
  induction stream as [|log rest IH].
  - repeat split. discriminate.
  - rewrite handle_logs_cons.
    destruct (handle_log_cases log self) as (Hs & Hl & Ht & Hr).
    destruct (handle_log log self) as [[[[]|e1] s1] t1]; cbn in Hs, Hl, Ht, Hr.
    + subst s1. destruct (_handle_logs rest self) as [[r s2] t2].
      cbn in IH |- *. destruct IH as (-> & Hl2 & Ht2 & Hr2).
      unfold info_lines in *.
      rewrite filter_app, flat_map_app, forallb_app, Hl, Hl2, Ht, Ht2.
      repeat split. exact Hr2.
    + subst s1. cbn. repeat split; auto.
      intros e H. inversion H; subst. apply (Hr e eq_refl).
Qed.

Lemma pump_only_logs_trimmed_lines_witness :
  forallb trimmed
    (info_lines
       (trace_of (_handle_logs
                    [PyBytes [x20; x68; x69; x0a];
                     PyGenerator [PyBytes [x09; x6f; x6b]; PyBytes [xff]]]
                    (Sample.action (Done tt) (Done 7%N))))) = true /\
  (UnicodeDecodeError = UnicodeDecodeError \/
   UnicodeDecodeError = AttributeError).
Proof.
  destruct (@pump_only_logs_trimmed_lines
              [PyBytes [x20; x68; x69; x0a];
               PyGenerator [PyBytes [x09; x6f; x6b]; PyBytes [xff]]]
              (Sample.action (Done tt) (Done 7%N))) as (_ & _ & Ht & Hr).
  split; [exact Ht | apply Hr; reflexivity].
Defined.

(** X10.  On a stream that holds no nested generator the pump never
    raises, and it logs exactly one event per chunk that is not empty or
    absent: the chunk's line when it decodes, one diagnostic otherwise. *)
Theorem plain_stream_logs_once_per_chunk stream self :
  Forall (fun log => isinstance_GeneratorType log = false) stream ->
  result_of (_handle_logs stream self) = Ok tt /\
  List.length (trace_of (_handle_logs stream self)) =
    List.length (filter truthy stream) /\
  List.length (info_lines (trace_of (_handle_logs stream self)))
  + List.length (logged EXCEPTION (trace_of (_handle_logs stream self))) =
    List.length (filter truthy stream).
Proof.
  induction 1 as [|log rest Hlog Hrest IH].
  - repeat split.
  - rewrite handle_logs_cons, (plain_chunk_is_recovered log self Hlog).
    destruct (_handle_logs rest self) as [[r s2] t2].
    cbn [result_of trace_of fst snd] in *. destruct IH as (-> & Hlen & Hsum).
    unfold info_lines, logged in *.
    rewrite length_app, !flat_map_app, !length_app.
    cbn [filter]. destruct (truthy log); cbn [negb].
    + destruct (decode log); cbn [List.length flat_map app];
        repeat split; lia.
    + cbn. repeat split; lia.
Qed.

Lemma plain_stream_logs_once_per_chunk_witness :
  List.length
    (trace_of (_handle_logs [PyNone; PyBytes [xff]; PyBytes []; PyStr [97%N];
                             PyBytes [x6f; x6b]]
                 (Sample.action (Done tt) (Done 7%N)))) = 3.
Proof.
  refine (proj1 (proj2 (@plain_stream_logs_once_per_chunk
                          [PyNone; PyBytes [xff]; PyBytes []; PyStr [97%N];
                           PyBytes [x6f; x6b]]
                          (Sample.action (Done tt) (Done 7%N)) _))).
  repeat constructor.
Defined.

(** X11.  Inside a nested generator the pump stops at the first element
    that does not decode: the lines of the elements before it have been
    forwarded, the element's error is raised, and neither the rest of the
    generator nor the chunks after it are read. *)
Theorem nested_generator_stops_at_first_bad_element
    good lines bad e after rest self :
  forwards (PyGenerator good) lines ->
  decode bad = Raise e ->
  _handle_logs (PyGenerator (good ++ bad :: after) :: rest) self =
  (Raise e, self, map (fun line => Log INFO (Text line)) lines).
Proof.
  intros Hgood Hbad. rewrite handle_logs_cons.
  assert (Hall : Forall2 (fun item line =>
                            exists b text,
                              item = PyBytes b /\ decode_utf8 b = Ok text /\
                              line = strip text) good lines)
    by (inversion Hgood; subst; [discriminate | assumption]).
  unfold handle_log. cbn [truthy negb]. clear Hgood.
  assert (H : for_each (good ++ bad :: after) info_decoded self =
              (Raise e, self, map (fun line => Log INFO (Text line)) lines)).
  { induction Hall as [|item line items lines' (b & text & -> & Hdec & ->) _ IH].
    - cbn [app]. rewrite for_each_cons.
      destruct (info_decoded_cases bad self)
        as [(text & Hd & _)|(e' & Hd & _ & ->)]; rewrite Hbad in Hd;
        inversion Hd; subst. reflexivity.
    - cbn [app]. rewrite for_each_cons, (info_decoded_ok b self Hdec), IH.
      reflexivity. }
  rewrite H. reflexivity.
Qed.

Lemma nested_generator_stops_at_first_bad_element_witness :
  _handle_logs
    [PyGenerator [PyBytes [x68; x69; x0a]; PyBytes [xc3]; PyBytes [x6f; x6b]];
     PyBytes [x6f; x6b]]
    (Sample.action (Done tt) (Done 7%N)) =
  (Raise UnicodeDecodeError, Sample.action (Done tt) (Done 7%N),
   [Log INFO (Text (py "hi"))]).
Proof.
  apply (@nested_generator_stops_at_first_bad_element
           [PyBytes [x68; x69; x0a]] [py "hi"] (PyBytes [xc3])
           UnicodeDecodeError [PyBytes [x6f; x6b]] [PyBytes [x6f; x6b]]).
  - apply forwards_nested. repeat constructor.
    exists [x68; x69; x0a], [104; 105; 10]%N. repeat split.
  - reflexivity.
Defined.

Lemma utf8_of_ascii bs :
  forallb (fun b => (b <? 128)%N) bs = true -> utf8 bs = Some bs.
Proof.
  induction bs as [|b bs IH]; intro H; [reflexivity|].
  cbn [forallb] in H. apply andb_prop in H. destruct H as [Hb Hbs].
  cbn [utf8]. rewrite Hb, (IH Hbs). reflexivity.
Qed.

Lemma forallb_of_map {A B} (f : B -> bool) (g : A -> B) xs :
  forallb f (map g xs) = forallb (fun x => f (g x)) xs.
Proof.
  induction xs as [|x xs IH]; [reflexivity|]. cbn. rewrite IH. reflexivity.
Qed.

(** X12.  A plain chunk of ASCII bytes is forwarded as the same characters,
    trimmed: decoding changes nothing below 128. *)
Theorem ascii_chunk_is_forwarded_as_is b self :
  b <> [] ->
  forallb (fun x => (Byte.to_N x <? 128)%N) b = true ->
  handle_log (PyBytes b) self =
  (Ok tt, self, [Log INFO (Text (strip (map Byte.to_N b)))]).
Proof.
  intros Hne Hascii.
  rewrite plain_chunk_is_recovered by reflexivity.
  destruct b as [|b0 b]; [contradiction|].
  cbn [truthy negb List.length Nat.eqb decode]. unfold decode_utf8.
  rewrite utf8_of_ascii; [reflexivity|].
  rewrite forallb_of_map. exact Hascii.
Qed.

Lemma ascii_chunk_is_forwarded_as_is_witness :
  handle_log (PyBytes [x20; x6f; x6b; x0d; x0a])
             (Sample.action (Done tt) (Done 7%N)) =
  (Ok tt, Sample.action (Done tt) (Done 7%N), [Log INFO (Text (py "ok"))]).
Proof.
  refine (@ascii_chunk_is_forwarded_as_is [x20; x6f; x6b; x0d; x0a]
            (Sample.action (Done tt) (Done 7%N)) _ eq_refl).
  discriminate.
Defined.

(* ================================================================= *)
(** ** Construction, [execute] and the completion handle *)

(** X13.  Construction succeeds as soon as there is one node description:
    the new action holds no future, no task and no container, and its pool
    is open with one slot per node. *)
Theorem construction_with_a_node_succeeds docker policy d rest :
  exists self,
    __init__ docker policy (d :: rest) = Ok self /\
    get_asyncio_future self = None /\
    _started_task self = None /\
    _container self = None /\
    _shutdown (_executor self) = false /\
    _max_workers (_executor self) = Z.of_nat (S (List.length rest)).
Proof.
  unfold __init__, ThreadPoolExecutor_init.
  destruct (Z.leb_spec (Z.of_nat (List.length (d :: rest))) 0) as [H|H].
  - cbn [List.length] in H. lia.
  - eexists. split; [reflexivity|]. repeat split.
Qed.

Lemma execute_spec context self :
  execute context self =
  (Ok None,
   set_started_task (Some (create_task (asyncio_loop context)))
     (set_completed_future (Some (create_future (asyncio_loop context))) self),
   [RegisterOnShutdown;
    CreateFuture (create_future (asyncio_loop context));
    CreateTask (create_task (asyncio_loop context))]).
Proof. reflexivity. Qed.

(** X14.  [get_asyncio_future] returns the future [execute] created until
    the action gives it up: it is that future right after [execute], and
    [None] once the shutdown handler has run or the start of the container
    has failed, so a caller that asks afterwards no longer gets the
    cancelled future. *)
Theorem completion_handle_is_dropped_with_its_cancellation context self :
  get_asyncio_future (self_of (execute context self)) =
    Some (create_future (asyncio_loop context)) /\
  get_asyncio_future
    (self_of (__on_shutdown (self_of (execute context self)))) = None /\
  In (FutureCancel (create_future (asyncio_loop context)))
     (trace_of (__on_shutdown (self_of (execute context self)))) /\
  (forall msg,
     repeats_keyword (or_empty (run_args (_policy self))) = false ->
     containers_run (_docker_client self) (image_name (_policy self))
                    (container_name (_policy self))
                    (or_empty (run_args (_policy self))) = NotFound msg ->
     get_asyncio_future
       (self_of (_start_docker_nodes context (self_of (execute context self))))
     = None).
Proof.
  rewrite execute_spec. cbn [self_of fst snd].
  split; [reflexivity|]. split; [|split].
  - apply future_cleared_by_shutdown.
  - rewrite on_shutdown_spec. cbn. auto.
  - intros msg Hkw Hrun.
    rewrite (@start_docker_nodes_not_found context
               (set_started_task (Some (create_task (asyncio_loop context)))
                  (set_completed_future
                     (Some (create_future (asyncio_loop context))) self))
               msg Hkw Hrun).
    reflexivity.
Qed.

Lemma completion_handle_is_dropped_with_its_cancellation_witness :
  get_asyncio_future
    (self_of (_start_docker_nodes Sample.context
                (self_of (execute Sample.context
                            (Sample.action (Done tt) (NotFound [])))))) = None.
Proof.
  apply (proj2 (proj2 (proj2
           (@completion_handle_is_dropped_with_its_cancellation
              Sample.context (Sample.action (Done tt) (NotFound []))))) []);
    reflexivity.
Defined.

(** X15.  The shutdown handler never raises and returns [None]; it takes
    the lock first and releases it last; it never clears the task
    reference and leaves the policy, the node list and the Docker client
    alone; and it leaves the pool shut down exactly when the pool already
    was or the completion future was still set. *)
Theorem shutdown_handler_is_safe self :
  result_of (__on_shutdown self) = Ok None /\
  (exists calls, trace_of (__on_shutdown self) =
                 LockAcquire :: calls ++ [LockRelease]) /\
  _started_task (self_of (__on_shutdown self)) = _started_task self /\
  _policy (self_of (__on_shutdown self)) = _policy self /\
  _node_descriptions (self_of (__on_shutdown self)) = _node_descriptions self /\
  _docker_client (self_of (__on_shutdown self)) = _docker_client self /\
  _shutdown (_executor (self_of (__on_shutdown self))) =
    _shutdown (_executor self)
    || match _completed_future self with Some _ => true | None => false end.
Proof.
  rewrite on_shutdown_spec. cbn [result_of self_of trace_of fst snd].
  split; [reflexivity|]. split.
  - eexists. cbn [app]. rewrite app_assoc. reflexivity.
  - destruct (_completed_future self); cbn; rewrite ?orb_true_r, ?orb_false_r;
      repeat split.
Qed.

(** X16.  An action that has been shut down cannot be started again: after
    the shutdown handler has run with the future set, a new [execute] and
    startup sequence (with a well-formed call of [containers.run]) start
    the container and the first node's process, and then fail with [RuntimeError] because the pool stays shut down; no log
    worker is created and the container is left running with the new
    future pending. *)
Theorem restart_after_shutdown_fails context self f c tokens d rest :
  _completed_future self = Some f ->
  repeats_keyword (or_empty (run_args (_policy self))) = false ->
  containers_run (_docker_client self) (image_name (_policy self))
                 (container_name (_policy self))
                 (or_empty (run_args (_policy self))) = Done c ->
  Shlex.split (entrypoint (_policy self)) = Ok tokens ->
  _node_descriptions self = d :: rest ->
  let again :=
    _start_docker_nodes context
      (self_of (execute context (self_of (__on_shutdown self)))) in
  result_of again =
    Raise (RuntimeError (py "cannot schedule new futures after shutdown")) /\
  exec_commands (trace_of again) = [node_command context tokens d] /\
  log_workers (trace_of again) = [] /\
  _container (self_of again) = Some c /\
  _completed_future (self_of again) =
    Some (create_future (asyncio_loop context)) /\
  filter is_future_cancel (trace_of again) = [].
Proof.
  intros Hfut Hkw Hrun Htok Hnodes again. subst again.
  rewrite on_shutdown_spec, Hfut, execute_spec.
  cbn [self_of fst snd].
  set (s2 := set_started_task _ _).
  assert (Hrun2 : containers_run (_docker_client s2) (image_name (_policy s2))
                    (container_name (_policy s2))
                    (or_empty (run_args (_policy s2))) = Done c) by exact Hrun.
  rewrite (start_docker_nodes_started context s2 Hkw Hrun2).
  rewrite (@load_with_shut_pool context (set_container (Some c) s2) c tokens
             d rest eq_refl eq_refl Htok Hnodes).
  cbn [result_of self_of trace_of fst snd].
  destruct (try_pull_quiet s2) as (He & Hw & Hc).
  rewrite !exec_commands_app, !log_workers_app, !filter_app, He, Hw, Hc.
  repeat split.
Qed.

Lemma restart_after_shutdown_fails_witness :
  result_of
    (_start_docker_nodes Sample.context
       (self_of (execute Sample.context
                   (self_of (__on_shutdown
                               (set_completed_future (Some 1%N)
                                  (Sample.action (Done tt) (Done 7%N)))))))) =
  Raise (RuntimeError (py "cannot schedule new futures after shutdown")).
Proof.
  exact (proj1 (@restart_after_shutdown_fails Sample.context
                  (set_completed_future (Some 1%N)
                     (Sample.action (Done tt) (Done 7%N)))
                  1%N 7%N [py "bash"; py "-c"] Sample.talker []
                  eq_refl eq_refl eq_refl eq_refl eq_refl)).
Defined.

(* ================================================================= *)
(** ** What a lifecycle can hold *)

Lemma enter_load_spec self :
  enter_load self =
  match _container self with
  | None => (Ok false, self, [Log ERROR (Text no_active_container)])
  | Some _ => (Ok true, self, [])
  end.
Proof.
  unfold enter_load. run_method. destruct (_container self); reflexivity.
Qed.

(** The calls of the shutdown handler are none of those counted below. *)
Lemma on_shutdown_counts self :
  count is_pull (trace_of (__on_shutdown self)) = 0 /\
  count is_run (trace_of (__on_shutdown self)) = 0 /\
  count is_exec (trace_of (__on_shutdown self)) = 0 /\
  count is_worker (trace_of (__on_shutdown self)) = 0 /\
  _node_descriptions (self_of (__on_shutdown self)) = _node_descriptions self.
Proof.
  rewrite on_shutdown_spec.
  destruct self as [p nd [f|] [t|] [c|] dc ex]; repeat split.
Qed.

Lemma try_pull_ok self :
  result_of (try_pull self) = Ok tt /\ self_of (try_pull self) = self.
Proof. rewrite try_pull_spec. split; reflexivity. Qed.

Lemma try_start_counts self :
  count is_pull (trace_of (try_start self)) = 0 /\
  count is_run (trace_of (try_start self)) =
    match result_of (try_start self) with Ok _ => 1 | Raise _ => 0 end /\
  count is_exec (trace_of (try_start self)) = 0 /\
  count is_worker (trace_of (try_start self)) = 0 /\
  count is_container_stop (trace_of (try_start self)) = 0 /\
  _node_descriptions (self_of (try_start self)) = _node_descriptions self /\
  _executor (self_of (try_start self)) = _executor self.
Proof.
  rewrite try_start_spec.
  destruct (repeats_keyword _); [repeat split|].
  destruct (containers_run _ _ _ _); repeat split.
Qed.

Ltac tally :=
  unfold count in *;
  cbn [filter is_pull is_run is_exec is_worker is_container_stop
       List.length app] in *;
  lia.

Lemma shutdown_step_keeps_progress nodes l :
  progress_inv nodes l -> progress_inv nodes (shutdown_step l).
Proof.
  intros [Hn Hpc]. unfold shutdown_step, progress_inv.
  destruct (on_shutdown_counts (this l)) as (H1 & H2 & H3 & H4 & H5).
  destruct (__on_shutdown (this l)) as [[r s] t].
  cbn [this pc trace trace_of self_of fst snd] in *.
  rewrite !count_app, H1, H2, H3, H4, !Nat.add_0_r.
  split; [congruence|].
  destruct (pc l); try exact Hpc.
  destruct (_started_task (this l)); exact Hpc.
Qed.

Lemma task_step_keeps_progress context nodes l :
  progress_inv nodes l -> progress_inv nodes (task_step context l).
Proof.
  intros [Hn Hpc]. unfold task_step, progress_inv, advance.
  destruct (pc l) as [ | | | | [|d rest] | r | ] eqn:E.
  - destruct (try_pull_counts (this l)) as (H1 & H2 & H3 & H4 & _).
    destruct (try_pull_ok (this l)) as [Hr Hs].
    destruct (try_pull (this l)) as [[r s] t].
    cbn [this pc trace trace_of self_of result_of fst snd] in *. subst r s.
    cbn [on_ok pc].
    rewrite !count_app, H1, H2, H3, H4. split; [exact Hn | lia].
  - destruct (try_start_counts (this l)) as (H1 & H2 & H3 & H4 & _ & H5 & _).
    destruct (try_start (this l)) as [[[fl|e] s] t] eqn:Hs;
      cbn [this pc trace trace_of self_of result_of fst snd on_ok] in *.
    + rewrite !count_app, H1, H2, H3, H4. split; [congruence|].
      destruct fl; lia.
    + rewrite !count_app, H1, H2, H3, H4. split; [congruence|]. lia.
  - rewrite cancel_completed_future_spec.
    cbn [this pc trace _node_descriptions set_completed_future].
    rewrite !count_app. split; [exact Hn|].
    destruct (_completed_future (this l)); tally.
  - rewrite enter_load_spec.
    destruct (_container (this l));
      cbn [this pc trace on_ok]; rewrite ?app_nil_r, ?count_app;
      (split; [exact Hn|]); rewrite ?Hn; tally.
  - cbn [this pc trace]. split; [exact Hn|]. cbn [List.length] in Hpc. lia.
  - destruct (load_node_cases context d (this l))
      as (Hs & _ & _ & H1 & H2 & Hr).
    destruct (load_node context d (this l)) as [[[[]|e] s] t];
      cbn [this pc trace trace_of self_of result_of fst snd on_ok] in *;
      rewrite !count_app; cbn [List.length] in Hpc;
      (split; [congruence|]); lia.
  - cbn [this pc trace]. rewrite E. split; assumption.
  - cbn [this pc trace]. rewrite E. split; assumption.
Qed.

Lemma progress_along_schedule context nodes schedule : forall l,
  progress_inv nodes l ->
  progress_inv nodes (run_schedule context schedule l).
Proof.
  induction schedule as [|a rest IH]; intros l H; [exact H|].
  rewrite run_schedule_cons. apply IH. destruct a; cbn [lifecycle_step].
  - apply task_step_keeps_progress, H.
  - apply shutdown_step_keeps_progress, H.
Qed.

Lemma progress_at_launch context self :
  progress_inv (_node_descriptions self) (launched context self).
Proof. split; [reflexivity|]. repeat split. Qed.

Lemma progress_bounds nodes l :
  progress_inv nodes l ->
  count is_pull (trace l) <= 1 /\
  count is_run (trace l) <= 1 /\
  count is_exec (trace l) <= List.length nodes /\
  count is_worker (trace l) <= count is_exec (trace l).
Proof.
  intros [_ H]. destruct (pc l); lia.
Qed.

(** X17.  Over one lifecycle, whatever the interleaving of the startup task
    with shutdown notifications, the image is pulled at most once, at most
    one container is started, at most one [exec_run] is issued per
    configured node, and no log worker is created without an [exec_run]. *)
Theorem lifecycle_starts_each_thing_once context self schedule :
  count is_pull
    (trace (run_schedule context schedule (launched context self))) <= 1 /\
  count is_run
    (trace (run_schedule context schedule (launched context self))) <= 1 /\
  count is_exec
    (trace (run_schedule context schedule (launched context self)))
  <= List.length (_node_descriptions self) /\
  count is_worker
    (trace (run_schedule context schedule (launched context self)))
  <= count is_exec
       (trace (run_schedule context schedule (launched context self))).
Proof.
  apply progress_bounds, progress_along_schedule, progress_at_launch.
Qed.

(** X18.  For an action that was constructed, the log workers of a
    lifecycle never outnumber the slots of its pool. *)
Theorem workers_fit_the_pool docker policy nodes self context schedule :
  __init__ docker policy nodes = Ok self ->
  (Z.of_nat
     (count is_worker
        (trace (run_schedule context schedule (launched context self))))
   <= _max_workers (_executor self))%Z.
Proof.
  intro Hinit.
  assert (Hsize : _max_workers (_executor self) =
                  Z.of_nat (List.length (_node_descriptions self))).
  { unfold __init__, ThreadPoolExecutor_init in Hinit.
    destruct (_ <=? 0)%Z; [discriminate|]. inversion Hinit. reflexivity. }
  rewrite Hsize.
  pose proof (progress_bounds
                (progress_along_schedule context schedule
                   (progress_at_launch context self))) as (_ & _ & He & Hw).
  lia.
Qed.

Lemma workers_fit_the_pool_witness :
  (Z.of_nat
     (count is_worker
        (trace (run_schedule Sample.context
                  [TaskStep; TaskStep; TaskStep; TaskStep; TaskStep]
                  (launched Sample.context
                     (Sample.action (Done tt) (Done 7%N))))))
   <= 1)%Z.
Proof.
  exact (@workers_fit_the_pool (Sample.docker (Done tt) (Done 7%N))
           Sample.policy [Sample.talker]
           (Sample.action (Done tt) (Done 7%N)) Sample.context
           [TaskStep; TaskStep; TaskStep; TaskStep; TaskStep] eq_refl).
Defined.

Lemma cancelled_stays context schedule : forall l,
  pc l = Cancelled -> pc (run_schedule context schedule l) = Cancelled.
Proof.
  induction schedule as [|a rest IH]; intros l H; [exact H|].
  rewrite run_schedule_cons. apply IH. destruct a; cbn [lifecycle_step].
  - unfold task_step. rewrite H. exact H.
  - unfold shutdown_step. destruct (__on_shutdown (this l)) as [[r s] t].
    cbn [pc]. rewrite H. reflexivity.
Qed.

Lemma advance_extends_trace {A} (m : M A) next l :
  exists t, trace (advance m next l) = trace l ++ t.
Proof.
  unfold advance. destruct (m (this l)) as [[r s] t]. exists t. reflexivity.
Qed.

Lemma step_extends_trace context a l :
  exists t, trace (lifecycle_step context a l) = trace l ++ t.
Proof.
  destruct a; cbn [lifecycle_step].
  - unfold task_step.
    destruct (pc l) as [ | | | | [|d rest] | r | ];
      try apply advance_extends_trace;
      exists []; cbn [trace]; rewrite app_nil_r; reflexivity.
  - unfold shutdown_step. destruct (__on_shutdown (this l)) as [[r s] t].
    exists t. reflexivity.
Qed.

Lemma schedule_extends_trace context schedule : forall l,
  exists t, trace (run_schedule context schedule l) = trace l ++ t.
Proof.
  induction schedule as [|a rest IH]; intro l.
  - exists []. rewrite app_nil_r. reflexivity.
  - rewrite run_schedule_cons.
    destruct (IH (lifecycle_step context a l)) as [t2 ->].
    destruct (step_extends_trace context a l) as [t1 ->].
    exists (t1 ++ t2). rewrite app_assoc. reflexivity.
Qed.

(** X19.  A shutdown notification that arrives before the startup task has
    entered its body cancels it for good: whatever follows, the image is
    not pulled, no container is started and no node is launched. *)
Theorem shutdown_before_start_prevents_everything context self schedule :
  pc (run_schedule context (Shutdown :: schedule) (launched context self))
    = Cancelled /\
  In (TaskCancel (create_task (asyncio_loop context)))
     (trace (run_schedule context (Shutdown :: schedule)
               (launched context self))) /\
  filter is_docker_call
    (trace (run_schedule context (Shutdown :: schedule)
              (launched context self))) = [].
Proof.
  assert (Hpc : pc (run_schedule context (Shutdown :: schedule)
                      (launched context self)) = Cancelled).
  { rewrite run_schedule_cons. apply cancelled_stays.
    cbn [lifecycle_step]. unfold shutdown_step, launched.
    rewrite execute_spec.
    destruct (__on_shutdown _) as [[r s] t]. reflexivity. }
  split; [exact Hpc|]. split.
  - rewrite run_schedule_cons. cbn [lifecycle_step].
    assert (Hin : In (TaskCancel (create_task (asyncio_loop context)))
                     (trace (shutdown_step (launched context self)))).
    { unfold shutdown_step, launched. rewrite execute_spec, on_shutdown_spec.
      cbn. auto 10. }
    destruct (schedule_extends_trace context schedule
                (shutdown_step (launched context self))) as [t ->].
    apply in_or_app. left. exact Hin.
  - pose proof (progress_along_schedule context (Shutdown :: schedule)
                  (progress_at_launch context self)) as [_ H].
    rewrite Hpc in H. destruct H as (H1 & H2 & H3 & _).
    unfold count in *.
    induction (trace _) as [|e t IH]; [reflexivity|].
    destruct e; cbn in *; try discriminate; auto.
Qed.

Lemma stop_inv_advance {A} (m : M A) next l :
  keeps_future m ->
  (forall self, count is_container_stop (trace_of (m self)) = 0) ->
  stop_inv l -> stop_inv (advance m next l).
Proof.
  intros Hm Hq Hl. specialize (Hm (this l)). specialize (Hq (this l)).
  unfold advance. destruct (m (this l)) as [[r s] t].
  cbn [self_of trace_of fst snd] in *. destruct Hm as [Hf _].
  unfold stop_inv in *. cbn [this trace].
  rewrite count_app, Hq, Nat.add_0_r, Hf. exact Hl.
Qed.

Lemma stop_inv_step context a l :
  stop_inv l -> stop_inv (lifecycle_step context a l).
Proof.
  intro Hl. destruct a; cbn [lifecycle_step].
  - unfold task_step.
    destruct (pc l) as [ | | | | [|d rest] | r | ]; try exact Hl.
    + apply stop_inv_advance; [apply keeps_try_pull | | exact Hl].
      intro self. apply try_pull_counts.
    + apply stop_inv_advance; [apply keeps_try_start | | exact Hl].
      intro self. apply try_start_counts.
    + unfold advance. rewrite cancel_completed_future_spec.
      unfold stop_inv in *.
      cbn [this trace set_completed_future _completed_future].
      rewrite count_app. right. split; [reflexivity|].
      destruct (_completed_future (this l)); destruct Hl as [[_ H]|[_ H]];
        tally.
    + apply stop_inv_advance; [apply keeps_enter_load | | exact Hl].
      intro self. rewrite enter_load_spec.
      destruct (_container self); reflexivity.
    + apply stop_inv_advance; [apply keeps_load_node | | exact Hl].
      intro self. unfold count.
      destruct (load_node_cases context d self) as (_ & _ & -> & _).
      reflexivity.
  - unfold shutdown_step. rewrite on_shutdown_spec.
    unfold stop_inv in *. cbn [this trace].
    rewrite !count_app.
    destruct (this l) as [p nd [f|] [t|] [c|] dc ex];
      cbn [_completed_future _started_task _container set_container
           set_completed_future set_executor] in *;
      destruct Hl as [[Hf H]|[Hf H]]; try discriminate Hf;
      try (exfalso; apply Hf; reflexivity);
      right; (split; [reflexivity|]); tally.
Qed.

(** X20.  Over one lifecycle the container is stopped at most once,
    whatever the interleaving: the handler stops it only while the future
    is set, and clears the future in the same locked block. *)
Theorem container_stopped_at_most_once context self schedule :
  count is_container_stop
    (trace (run_schedule context schedule (launched context self))) <= 1.
Proof.
  assert (H : stop_inv (run_schedule context schedule
                          (launched context self))).
  { assert (H0 : stop_inv (launched context self)).
    { left. unfold launched. rewrite execute_spec. split; [discriminate|].
      reflexivity. }
    revert H0. generalize (launched context self).
    induction schedule as [|a rest IH]; intros l Hl; [exact Hl|].
    rewrite run_schedule_cons. apply IH, stop_inv_step, Hl. }
  destruct H as [[_ H]|[_ H]]; lia.
Qed.

(** *** After a shutdown no log worker is created *)

Lemma task_step_keeps_executor context l :
  _executor (this (task_step context l)) = _executor (this l).
Proof.
  unfold task_step, advance.
  destruct (pc l) as [ | | | | [|d rest] | r | ]; try reflexivity.
  - rewrite try_pull_spec. reflexivity.
  - destruct (try_start_counts (this l)) as (_ & _ & _ & _ & _ & _ & H).
    destruct (try_start (this l)) as [[r s] t]. exact H.
  - rewrite cancel_completed_future_spec. reflexivity.
  - rewrite enter_load_spec. destruct (_container (this l)); reflexivity.
  - pose proof (load_node_keeps_self context d (this l)) as H.
    destruct (load_node context d (this l)) as [[r s] t].
    cbn in H |- *. rewrite H. reflexivity.
Qed.

Lemma shutdown_step_keeps_pool_shut l :
  _shutdown (_executor (this l)) = true ->
  _shutdown (_executor (this (shutdown_step l))) = true.
Proof.
  intro H. unfold shutdown_step. rewrite on_shutdown_spec. cbn [this].
  destruct (_completed_future (this l)); [reflexivity | exact H].
Qed.

Lemma retired_step context a l :
  retired l -> retired (lifecycle_step context a l).
Proof.
  intros [H|[[r H]|H]]; destruct a; cbn [lifecycle_step].
  - left. rewrite task_step_keeps_executor. exact H.
  - left. apply shutdown_step_keeps_pool_shut, H.
  - right. left. exists r. unfold task_step. rewrite H. exact H.
  - right. left. exists r. unfold shutdown_step.
    destruct (__on_shutdown (this l)) as [[r' s] t]. cbn [pc]. rewrite H.
    reflexivity.
  - right. right. unfold task_step. rewrite H. exact H.
  - right. right. unfold shutdown_step.
    destruct (__on_shutdown (this l)) as [[r' s] t]. cbn [pc]. rewrite H.
    reflexivity.
Qed.

Lemma shutdown_step_no_worker l :
  count is_worker (trace (shutdown_step l)) = count is_worker (trace l).
Proof.
  unfold shutdown_step.
  destruct (on_shutdown_counts (this l)) as (_ & _ & _ & H & _).
  destruct (__on_shutdown (this l)) as [[r s] t].
  cbn [trace trace_of snd] in *. rewrite count_app, H. lia.
Qed.

Lemma retired_no_worker context a l :
  retired l ->
  count is_worker (trace (lifecycle_step context a l)) =
  count is_worker (trace l).
Proof.
  intro Hl. destruct a; cbn [lifecycle_step];
    [|apply shutdown_step_no_worker].
  unfold task_step, advance.
  destruct (pc l) as [ | | | | [|d rest] | r | ] eqn:E; try reflexivity.
  - destruct (try_pull_counts (this l)) as (_ & _ & _ & H & _).
    destruct (try_pull (this l)) as [[r s] t].
    cbn [trace trace_of snd] in *. rewrite count_app, H. lia.
  - destruct (try_start_counts (this l)) as (_ & _ & _ & H & _).
    destruct (try_start (this l)) as [[r s] t].
    cbn [trace trace_of snd] in *. rewrite count_app, H. lia.
  - rewrite cancel_completed_future_spec. cbn [trace]. rewrite count_app.
    destruct (_completed_future (this l)); tally.
  - rewrite enter_load_spec.
    destruct (_container (this l)); cbn [trace]; rewrite count_app; tally.
  - destruct Hl as [H|[[r H]|H]]; try congruence.
    destruct (load_node_cases context d (this l)) as (_ & _ & _ & _ & _ & Hr).
    destruct (load_node context d (this l)) as [[[[]|e] s] t];
      cbn [trace trace_of result_of fst snd] in *; rewrite count_app.
    + destruct Hr as (_ & _ & Hlive). congruence.
    + destruct Hr as (_ & _ & ->). lia.
Qed.

Lemma retired_schedule context schedule : forall l,
  retired l ->
  count is_worker (trace (run_schedule context schedule l)) =
  count is_worker (trace l).
Proof.
  induction schedule as [|a rest IH]; intros l H; [reflexivity|].
  rewrite run_schedule_cons, (IH _ (retired_step context a H)).
  apply retired_no_worker, H.
Qed.

(** Once the future is cleared the lifecycle is retired. *)
Lemma cleared_future_means_retired context a l :
  (_completed_future (this l) = None -> retired l) ->
  _completed_future (this (lifecycle_step context a l)) = None ->
  retired (lifecycle_step context a l).
Proof.
  intros Hl Hafter.
  destruct (_completed_future (this l)) as [f|] eqn:Hf.
  - destruct a; cbn [lifecycle_step] in *.
    + unfold task_step in *.
      assert (Hadv : forall A (m : M A) next,
                 keeps_future m ->
                 _completed_future (this (advance m next l)) <> None).
      { intros A m next Hm. specialize (Hm (this l)). unfold advance.
        destruct (m (this l)) as [[r s] t]. cbn in *.
        destruct Hm as [-> _]. rewrite Hf. discriminate. }
      destruct (pc l) as [ | | | | [|d rest] | r | ] eqn:E;
        try (cbn [this] in Hafter; congruence).
      * exfalso. exact (Hadv _ _ _ keeps_try_pull Hafter).
      * exfalso. exact (Hadv _ _ _ keeps_try_start Hafter).
      * right. left. unfold advance. rewrite cancel_completed_future_spec.
        eexists. reflexivity.
      * exfalso. exact (Hadv _ _ _ keeps_enter_load Hafter).
      * exfalso. exact (Hadv _ _ _ (keeps_load_node context d) Hafter).
    + left. unfold shutdown_step. rewrite on_shutdown_spec, Hf. reflexivity.
  - apply retired_step, Hl. reflexivity.
Qed.

Lemma cleared_future_means_retired_schedule context schedule : forall l,
  (_completed_future (this l) = None -> retired l) ->
  _completed_future (this (run_schedule context schedule l)) = None ->
  retired (run_schedule context schedule l).
Proof.
  induction schedule as [|a rest IH]; intros l Hl; [exact Hl|].
  rewrite run_schedule_cons. apply IH.
  apply cleared_future_means_retired, Hl.
Qed.

(** X21.  After a shutdown notification no log worker is created any more:
    whatever runs afterwards, the workers of the lifecycle are those that
    existed when the handler returned. *)
Theorem no_worker_after_shutdown context self before after :
  count is_worker
    (trace (run_schedule context (before ++ Shutdown :: after)
              (launched context self))) =
  count is_worker
    (trace (run_schedule context (before ++ [Shutdown])
              (launched context self))).
Proof.
  replace (before ++ Shutdown :: after)
    with ((before ++ [Shutdown]) ++ after)
    by (rewrite <- app_assoc; reflexivity).
  rewrite (run_schedule_app context (before ++ [Shutdown]) after).
  apply retired_schedule.
  apply cleared_future_means_retired_schedule.
  - unfold launched. rewrite execute_spec. discriminate.
  - rewrite run_schedule_app. cbn [run_schedule fold_left lifecycle_step].
    apply shutdown_step_clears_future.
Qed.

(* ================================================================= *)
(** ** The pump reads its stream in order *)

Lemma handle_logs_keeps_self stream self :
  self_of (_handle_logs stream self) = self.
Proof.
  induction stream as [|x rest IH]; [reflexivity|].
  rewrite handle_logs_cons.
  destruct (handle_log_cases x self) as (Hx & _).
  destruct (handle_log x self) as [[[[]|e] s1] t1]; cbn in Hx; subst s1.
  - destruct (_handle_logs rest self) as [[r2 s2] t2]. exact IH.
  - reflexivity.
Qed.

(** X22.  What the pump has logged for the chunks read so far does not
    depend on the chunks that follow: on a stream [a ++ b] it behaves on
    [a] as on the stream [a] alone, then goes on with [b] if it has not
    raised and never reads [b] if it has. *)
Theorem pump_reads_in_order a b self :
  _handle_logs (a ++ b) self =
  match result_of (_handle_logs a self) with
  | Ok _ =>
    (result_of (_handle_logs b self), self,
     trace_of (_handle_logs a self) ++ trace_of (_handle_logs b self))
  | Raise e => (Raise e, self, trace_of (_handle_logs a self))
  end.
Proof.
  induction a as [|log a IH].
  - cbn [app].
    change (_handle_logs [] self) with (@Ok unit tt, self, @nil event).
    cbn [result_of trace_of fst snd app].
    pose proof (handle_logs_keeps_self b self) as Hs.
    destruct (_handle_logs b self) as [[r s] t]. cbn in Hs. subst s.
    reflexivity.
  - cbn [app]. rewrite !handle_logs_cons.
    destruct (handle_log_cases log self) as (Hs & _).
    destruct (handle_log log self) as [[[[]|e] s1] t1]; cbn in Hs; subst s1.
    + rewrite IH.
      destruct (_handle_logs a self) as [[[[]|e] s2] t2];
        cbn [result_of trace_of fst snd].
      * rewrite app_assoc. reflexivity.
      * reflexivity.
    + reflexivity.
Qed.
